(** * RingBufferSimulation: the ring buffer, the signal generator and the
      waveform callables of [ring_buffer.py] and [main.py].

    Integers are Python integers ([Z]).  A numpy array of floats is a
    list of samples over an abstract sample type; an exception leaves the
    function with the object as mutated so far, so every method is a
    function from the object to an outcome and the object afterwards.
    Arithmetic on floats is an interface with two instances: the binary64
    numbers of the code, and the rational numbers, an idealisation used
    where a statement says "in exact arithmetic". *)

From Stdlib Require Import String.
From Stdlib Require Import ZArith QArith Qcanon Qround List Bool Lia Lqa.
From Stdlib Require PrimFloat SpecFloat FloatOps.
Import ListNotations.
Close Scope Qc_scope.
Close Scope Q_scope.
Open Scope Z_scope.

(** ** Exceptions and the state-and-exception monad *)

Inductive PyError : Type :=
| ValueError (msg : string)
| ZeroDivisionError
| OverflowError.

Inductive outcome (X : Type) : Type :=
| Returns (x : X)
| Raises (e : PyError).
Arguments Returns {X} x.
Arguments Raises {X} e.

Definition M (S X : Type) : Type := S -> outcome X * S.

Definition ret {S X : Type} (x : X) : M S X := fun s => (Returns x, s).

Definition bind {S X Y : Type} (m : M S X) (k : X -> M S Y) : M S Y :=
  fun s =>
    match m s with
    | (Returns x, s') => k x s'
    | (Raises e, s') => (Raises e, s')
    end.

Definition raise {S X : Type} (e : PyError) : M S X := fun s => (Raises e, s).

Definition lift {S X : Type} (o : outcome X) : M S X := fun s => (o, s).

Definition get {S : Type} : M S S := fun s => (Returns s, s).

Definition modify {S : Type} (f : S -> S) : M S unit := fun s => (Returns tt, f s).

Declare Scope py_scope.
Delimit Scope py_scope with py.
Notation "x <- m ;; k" := (bind m (fun x => k))
  (at level 61, m at next level, right associativity) : py_scope.
Notation "m ;; k" := (bind m (fun _ => k))
  (at level 61, right associativity) : py_scope.
Open Scope py_scope.

(** ** Python and numpy primitives used by the code *)

Definition len {A : Type} (l : list A) : Z := Z.of_nat (length l).

(** [a % b] on Python integers: the sign follows the divisor, and a zero
    divisor raises. *)
Definition py_mod (a b : Z) : outcome Z :=
  if b =? 0 then Raises ZeroDivisionError else Returns (a mod b).

(** One bound of a slice, brought into [0 .. length]. *)
Definition adjust_index (n i : Z) : Z :=
  if i <? 0 then (if i + n <? 0 then 0 else i + n)
  else if i >=? n then n else i.

(** The bounds of [l[start:stop]]; [None] is an omitted bound. *)
Definition slice_bounds (n : Z) (start stop : option Z) : Z * Z :=
  (match start with None => 0 | Some i => adjust_index n i end,
   match stop with None => n | Some i => adjust_index n i end).

Section Arrays.
Context {A : Type}.

(** [l[start:stop]] *)
Definition py_slice (l : list A) (start stop : option Z) : list A :=
  let '(lo, hi) := slice_bounds (len l) start stop in
  firstn (Z.to_nat (hi - lo)) (skipn (Z.to_nat lo) l).

(** [buf[start:stop] = value] on a one-dimensional numpy array: the
    value has the length of the slice, or has length one and is repeated
    over the slice; any other length raises. *)
Definition np_setitem (buf : list A) (start stop : option Z) (value : list A)
  : outcome (list A) :=
  let '(lo, hi) := slice_bounds (len buf) start stop in
  let k := Z.to_nat (hi - lo) in
  let before := firstn (Z.to_nat lo) buf in
  let after := skipn (Z.to_nat lo + k) buf in
  if (length value =? k)%nat then Returns (before ++ value ++ after)
  else match value with
       | [v] => Returns (before ++ repeat v k ++ after)
       | _ => Raises (ValueError "could not broadcast input array"%string)
       end.

(** [np.concatenate((a, b))] *)
Definition np_concatenate (a b : list A) : list A := a ++ b.

(** [np.zeros(size, dtype=float)] *)
Definition np_zeros (zero : A) (size : Z) : outcome (list A) :=
  if size <? 0 then Raises (ValueError "negative dimensions are not allowed"%string)
  else Returns (repeat zero (Z.to_nat size)).
End Arrays.

(** ** class RingBuffer *)

Record RingBuffer (A : Type) : Type := mkRingBuffer {
  size : Z;
  buffer : list A;
  write_ptr : Z
}.
Arguments mkRingBuffer {A} size buffer write_ptr.
Arguments size {A} r.
Arguments buffer {A} r.
Arguments write_ptr {A} r.

Definition out_of_range : PyError :=
  ValueError "num_samples larger than buffer size"%string.

Section RingBufferOps.
Context {A : Type}.
Variable zero : A.

Definition set_buffer (b : list A) : M (RingBuffer A) unit :=
  modify (fun self => mkRingBuffer (size self) b (write_ptr self)).

Definition set_write_ptr (p : Z) : M (RingBuffer A) unit :=
  modify (fun self => mkRingBuffer (size self) (buffer self) p).

(** [self.buffer[start:stop] = value], in place. *)
Definition buffer_setitem (start stop : option Z) (value : list A)
  : M (RingBuffer A) unit :=
  self <- get ;;
  b <- lift (np_setitem (buffer self) start stop value) ;;
  set_buffer b.

(** [RingBuffer(size)] *)
Definition RingBuffer_init (size : Z) : outcome (RingBuffer A) :=
  match np_zeros zero size with
  | Returns b => Returns (mkRingBuffer size b 0)
  | Raises e => Raises e
  end.

(** [RingBuffer.write(data)], the body run while holding [self.lock]. *)
Definition write (data : list A) : M (RingBuffer A) unit :=
  let n := len data in
  self <- get ;;
  if n >=? size self then
    buffer_setitem None None (py_slice data (Some (- size self)) None) ;;
    set_write_ptr 0
  else
    end_ptr <- lift (py_mod (write_ptr self + n) (size self)) ;;
    (if end_ptr <? write_ptr self then
       let first_part := size self - write_ptr self in
       buffer_setitem (Some (write_ptr self)) None
                      (py_slice data None (Some first_part)) ;;
       buffer_setitem (Some 0) (Some end_ptr)
                      (py_slice data (Some first_part) None)
     else
       buffer_setitem (Some (write_ptr self)) (Some end_ptr) data) ;;
    set_write_ptr end_ptr.

(** [RingBuffer.read_latest(num_samples)], the body run while holding
    [self.lock]. *)
Definition read_latest (num_samples : Z) : M (RingBuffer A) (list A) :=
  self <- get ;;
  if num_samples >? size self then raise out_of_range
  else
    start <- lift (py_mod (write_ptr self - num_samples) (size self)) ;;
    if start + num_samples <=? size self then
      ret (py_slice (buffer self) (Some start) (Some (start + num_samples)))
    else
      let end_len := (start + num_samples) - size self in
      ret (np_concatenate (py_slice (buffer self) (Some start) None)
                          (py_slice (buffer self) None (Some end_len))).
End RingBufferOps.

Arguments RingBuffer_init {A} zero size.

(** ** The states of a ring buffer *)

(** The newest [k] elements of a chronological sequence. *)
Definition lastn {A : Type} (k : nat) (l : list A) : list A :=
  skipn (length l - k) l.

(** The storage read in chronological order: from the write pointer to the
    end, then from index 0 up to the write pointer. *)
Definition view {A : Type} (rb : RingBuffer A) : list A :=
  skipn (Z.to_nat (write_ptr rb)) (buffer rb)
  ++ firstn (Z.to_nat (write_ptr rb)) (buffer rb).

(** The capacity invariant. *)
Definition Inv {A : Type} (rb : RingBuffer A) : Prop :=
  0 < size rb /\ len (buffer rb) = size rb /\ 0 <= write_ptr rb < size rb.

(** A run of writes, in order, stopping at the first one that raises. *)
Fixpoint writes {A : Type} (chunks : list (list A)) : M (RingBuffer A) unit :=
  match chunks with
  | [] => ret tt
  | data :: rest => write data ;; writes rest
  end.

(** The buffers that a program can hold: one made by the constructor with
    a positive size, then used through [write] and [read_latest] only.
    The index is the sequence of all samples written so far. *)
Inductive reachable {A : Type} (zero : A) : RingBuffer A -> list A -> Prop :=
| reachable_init size rb :
    0 < size -> RingBuffer_init zero size = Returns rb -> reachable zero rb []
| reachable_write rb history data out rb' :
    reachable zero rb history -> write data rb = (out, rb') ->
    reachable zero rb' (history ++ data)
| reachable_read rb history n out rb' :
    reachable zero rb history -> read_latest n rb = (out, rb') ->
    reachable zero rb' history.

(** ** Floating-point arithmetic, as an interface

    The code computes with Python and numpy floats.  The model is
    parametric in the number type and its operations, so that what is
    proved for every instance holds for the floats of the code, and what
    needs the laws of exact arithmetic is proved for the instance of
    rational numbers below and says so. *)

Class Arith (F : Type) : Type := {
  flit : Q -> F;                 (* a literal or a converted integer *)
  fadd : F -> F -> F;
  fsub : F -> F -> F;
  fmul : F -> F -> F;
  fdiv : F -> F -> F;            (* numpy division: never raises *)
  fmod : F -> F -> F;            (* numpy [%]: never raises *)
  fle : F -> F -> bool;
  fis_zero : F -> bool;
  fceil : F -> outcome Z        (* the length [np.arange] computes *)
}.

(** [np.sin] and [np.pi]. *)
Class Trig (F : Type) : Type := {
  fsin : F -> F;
  fpi : F
}.

Section FloatPrimitives.
Context {F : Type} `{Arith F}.

(** [x >= y] *)
Definition fge (x y : F) : bool := fle y x.

(** [a / b] on Python floats: a zero divisor raises. *)
Definition py_truediv (a b : F) : outcome F :=
  if fis_zero b then Raises ZeroDivisionError else Returns (fdiv a b).

(** [np.arange(start, stop, step)] on Python numbers: the length is the
    ceiling of [(stop - start) / step], a division that raises for a zero
    step, and a ceiling that raises when the quotient is not a number or
    is beyond the machine integers; the values are [start + i * step],
    none when the length is not positive. *)
Definition np_arange (start stop step : F) : outcome (list F) :=
  if fis_zero step then Raises ZeroDivisionError
  else
    match fceil (fdiv (fsub stop start) step) with
    | Raises e => Raises e
    | Returns length =>
        Returns (map (fun i =>
                        fadd start (fmul (flit (inject_Z (Z.of_nat i))) step))
                   (seq 0 (Z.to_nat length)))
    end.

(** [time.sleep(secs)]: returns after the delay; a negative or NaN delay
    raises. *)
Definition time_sleep (secs : F) : outcome unit :=
  if fle (flit 0) secs then Returns tt
  else Raises (ValueError "sleep length must be non-negative"%string).
End FloatPrimitives.

(** ** class SignalGenerator

    The generator holds a reference to the ring buffer, which the reader
    holds too: the two objects live side by side in one [World]. *)

(** Where the thread that runs [run] stands: at the test of the [while],
    between [_generate_samples] and [write], or between [write] and
    [time.sleep]. *)
Inductive Position (F : Type) : Type :=
| AtTest
| Generated (samples : list F)
| Written.
Arguments AtTest {F}.
Arguments Generated {F} samples.
Arguments Written {F}.

(** The [threading.Thread] object of [self.thread], with the arguments of
    [start] that its closure captured. *)
Inductive Thread (F : Type) : Type :=
| Alive (at_ : Position F) (duration interval : F)
| Exited.
Arguments Alive {F} at_ duration interval.
Arguments Exited {F}.

Record SignalGenerator (F : Type) : Type := mkSignalGenerator {
  sample_rate : F;
  running : bool;
  time_offset : F;
  thread : option (Thread F)     (* [None]: no attribute [thread] yet *)
}.
Arguments mkSignalGenerator {F} sample_rate running time_offset thread.
Arguments sample_rate {F} s.
Arguments running {F} s.
Arguments time_offset {F} s.
Arguments thread {F} s.

Record World (F : Type) : Type := mkWorld {
  rb : RingBuffer F;
  gen : SignalGenerator F
}.
Arguments mkWorld {F} rb gen.
Arguments rb {F} w.
Arguments gen {F} w.

Section SignalGeneratorOps.
Context {F : Type} `{Arith F}.
(** [self.func], the callable given to the constructor. *)
Variable func : list F -> outcome (list F).

(** A method of the buffer, called through [self.buffer]. *)
Definition on_buffer {X : Type} (m : M (RingBuffer F) X) : M (World F) X :=
  fun w => let '(out, b) := m (rb w) in (out, mkWorld b (gen w)).

Definition set_time_offset (x : F) : M (World F) unit :=
  modify (fun w =>
    mkWorld (rb w)
      (mkSignalGenerator (sample_rate (gen w)) (running (gen w)) x
         (thread (gen w)))).

Definition set_running (b : bool) : M (World F) unit :=
  modify (fun w =>
    mkWorld (rb w)
      (mkSignalGenerator (sample_rate (gen w)) b (time_offset (gen w))
         (thread (gen w)))).

Definition set_thread (t : option (Thread F)) : M (World F) unit :=
  modify (fun w =>
    mkWorld (rb w)
      (mkSignalGenerator (sample_rate (gen w)) (running (gen w))
         (time_offset (gen w)) t)).

(** [SignalGenerator(buffer, sample_rate, func)] *)
Definition SignalGenerator_init (buffer : RingBuffer F) (sample_rate : F)
  : World F :=
  mkWorld buffer (mkSignalGenerator sample_rate false (flit 0) None).

(** The array [t] that [_generate_samples] passes to [self.func]. *)
Definition time_vector (duration : F) : M (World F) (list F) :=
  w <- get ;;
  step <- lift (py_truediv (flit 1) (sample_rate (gen w))) ;;
  ticks <- lift (np_arange (flit 0) duration step) ;;
  ret (map (fun x => fadd x (time_offset (gen w))) ticks).

(** [SignalGenerator._generate_samples(duration)] *)
Definition _generate_samples (duration : F) : M (World F) (list F) :=
  t <- time_vector duration ;;
  samples <- lift (func t) ;;
  w <- get ;;
  set_time_offset (fadd (time_offset (gen w)) duration) ;;
  ret samples.

(** One pass through the body of the [while] of [run]. *)
Definition run_body (duration interval : F) : M (World F) unit :=
  samples <- _generate_samples duration ;;
  on_buffer (write samples) ;;
  lift (time_sleep interval).

(** [n] passes through the body, one after the other. *)
Fixpoint run_bodies (n : nat) (duration interval : F) : M (World F) unit :=
  match n with
  | O => ret tt
  | S n' => run_body duration interval ;; run_bodies n' duration interval
  end.

(** One step of the thread of [run]; an exception that leaves [run] ends
    the thread. *)
Definition thread_step (w : World F) : World F :=
  match thread (gen w) with
  | Some (Alive AtTest duration interval) =>
      if running (gen w) then
        match _generate_samples duration w with
        | (Returns samples, w') =>
            snd (set_thread (Some (Alive (Generated samples) duration interval)) w')
        | (Raises _, w') => snd (set_thread (Some Exited) w')
        end
      else snd (set_thread (Some Exited) w)
  | Some (Alive (Generated samples) duration interval) =>
      match on_buffer (write samples) w with
      | (Returns _, w') => snd (set_thread (Some (Alive Written duration interval)) w')
      | (Raises _, w') => snd (set_thread (Some Exited) w')
      end
  | Some (Alive Written duration interval) =>
      match time_sleep interval with
      | Returns _ => snd (set_thread (Some (Alive AtTest duration interval)) w)
      | Raises _ => snd (set_thread (Some Exited) w)
      end
  | Some Exited => w
  | None => w
  end.

(** [SignalGenerator.start(duration, interval)] *)
Definition start (duration interval : F) : M (World F) unit :=
  set_running true ;;
  set_thread (Some (Alive AtTest duration interval)).

(** [self.thread.join()]: the caller waits while the thread takes its
    steps, and goes on once the thread has exited.  [None] when the
    thread is still alive after [fuel] steps. *)
Fixpoint join (fuel : nat) (w : World F) : option (World F) :=
  match thread (gen w) with
  | Some (Alive _ _ _) =>
      match fuel with
      | O => None
      | S fuel' => join fuel' (thread_step w)
      end
  | _ => Some w
  end.

(** [SignalGenerator.stop()]; [None] when the call has not returned after
    [fuel] steps of the thread. *)
Definition stop (fuel : nat) (w : World F) : option (outcome unit * World F) :=
  let w1 := snd (set_running false w) in
  match thread (gen w1) with
  | Some _ =>
      match join fuel w1 with
      | Some w2 => Some (Returns tt, w2)
      | None => None
      end
  | None => Some (Returns tt, w1)
  end.
End SignalGeneratorOps.

(** Whether the thread of the generator was started and has not exited. *)
Definition is_alive {F : Type} (w : World F) : bool :=
  match thread (gen w) with
  | Some (Alive _ _ _) => true
  | _ => false
  end.

(** The steps the thread still takes, at most, once [running] is false:
    to the end of the pass it is in, and through the test of the [while]. *)
Definition steps_to_exit {F : Type} (w : World F) : nat :=
  match thread (gen w) with
  | Some (Alive (Generated _) _ _) => 3
  | Some (Alive Written _ _) => 2
  | Some (Alive AtTest _ _) => 1
  | _ => 0
  end.

(** ** class SignalFunctions of [main.py] *)

Module SignalFunctions.

Module MySin.
Record t (F : Type) : Type := init { frequency : F; offset : F }.
Arguments init {F} frequency offset.
Arguments frequency {F} t.
Arguments offset {F} t.

Section Call.
Context {F : Type} `{Arith F} `{Trig F}.

(** The expression of [MySin.__call__] at one element of the array. *)
Definition sample (self : t F) (x : F) : F :=
  fadd (fsin (fmul (fmul (fmul (flit 2) fpi) x) (frequency self)))
       (offset self).

(** [MySin.__call__(t)]: numpy arithmetic, element by element. *)
Definition call (self : t F) (t : list F) : list F := map (sample self) t.
End Call.
End MySin.

Module DeltaUpDown.
Record t (F : Type) : Type := init {
  amplitude : F;
  frequency : F;
  offset : F;
  edge_time : F
}.
Arguments init {F} amplitude frequency offset edge_time.
Arguments amplitude {F} t.
Arguments frequency {F} t.
Arguments offset {F} t.
Arguments edge_time {F} t.

Section Call.
Context {F : Type} `{Arith F}.

(** The value appended for one [x] of the loop. *)
Definition sample (self : t F) (edge0 edge1 edge2 edge3 x : F) : F :=
  if fle x edge0 then fadd (flit 0) (offset self)
  else if fge x edge0 && fle x edge1 then
    let t := fdiv (fsub x edge0) (fsub edge1 edge0) in
    fadd (fmul (amplitude self)
               (fmul (fmul t t) (fsub (flit 3) (fmul (flit 2) t))))
         (offset self)
  else if fge x edge1 && fle x edge2 then
    fadd (fmul (amplitude self) (flit 1)) (offset self)
  else if fge x edge2 && fle x edge3 then
    let t := fdiv (fsub x edge2) (fsub edge3 edge2) in
    fadd (fmul (amplitude self)
               (fsub (flit 1)
                     (fmul (fmul t t) (fsub (flit 3) (fmul (flit 2) t)))))
         (offset self)
  else fadd (fmul (amplitude self) (flit 0)) (offset self).

(** The sample that [__call__] computes from the instant [x]: the
    instant reduced modulo the period, then one of the five formulas. *)
Definition value_at (self : t F) (x : F) : F :=
  let T := fdiv (flit 1) (frequency self) in
  sample self
    (fmul (flit (1 # 10)) T) (fmul (fadd (flit (1 # 10)) (edge_time self)) T)
    (fmul (flit (6 # 10)) T) (fmul (fadd (flit (6 # 10)) (edge_time self)) T)
    (fmod x T).

(** [DeltaUpDown.__call__(t)] *)
Definition call (self : t F) (t : list F) : outcome (list F) :=
  match py_truediv (flit 1) (frequency self) with
  | Raises e => Raises e
  | Returns T =>
      let edge0 := fmul (flit (1 # 10)) T in
      let edge1 := fmul (fadd (flit (1 # 10)) (edge_time self)) T in
      let edge2 := fmul (flit (6 # 10)) T in
      let edge3 := fmul (fadd (flit (6 # 10)) (edge_time self)) T in
      let t_mod := map (fun t_val => fmod t_val T) t in
      Returns (map (sample self edge0 edge1 edge2 edge3)
                 (py_slice t_mod None (Some (len t_mod / 2))))
  end.
End Call.
End DeltaUpDown.

End SignalFunctions.

(** ** The arithmetic of the code: IEEE 754 binary64

    Python floats and numpy float64 numbers are binary64 numbers; the
    primitive floats of the kernel are the same numbers, with the same
    correctly rounded operations. *)

(** An integer as a double, rounded to the nearest, ties to even. *)
Definition float_of_Z (z : Z) : PrimFloat.float :=
  FloatOps.SF2Prim
    (SpecFloat.binary_normalize FloatOps.prec FloatOps.emax z 0 false).

(** A literal [n / d]: the quotient of the two integers as doubles, which
    is the double nearest to the fraction while both are below [2^53]. *)
Definition float_lit (q : Q) : PrimFloat.float :=
  PrimFloat.div (float_of_Z (Qnum q)) (float_of_Z (Zpos (Qden q))).

(** The length [np.arange] computes from the quotient, its ceiling: a
    quotient that is not a number raises [ValueError], an infinite one or
    a ceiling beyond the machine integers raises [OverflowError]. *)
Definition float_ceil (x : PrimFloat.float) : outcome Z :=
  match FloatOps.Prim2SF x with
  | SpecFloat.S754_nan =>
      Raises (ValueError "arange: cannot compute length"%string)
  | SpecFloat.S754_infinity _ => Raises OverflowError
  | SpecFloat.S754_zero _ => Returns 0
  | SpecFloat.S754_finite s m e =>
      let n := if s then Z.neg m else Z.pos m in
      let c := if 0 <=? e then n * 2 ^ e else - ((- n) / 2 ^ (- e)) in
      if (- 2 ^ 63 <=? c) && (c <=? 2 ^ 63 - 1) then Returns c
      else Raises OverflowError
  end.

(** C's [fmod(a, b)]: the remainder of the division truncated towards
    zero, which is exact, with the sign of [a]. *)
Definition c_fmod (a b : PrimFloat.float) : PrimFloat.float :=
  match FloatOps.Prim2SF a, FloatOps.Prim2SF b with
  | SpecFloat.S754_nan, _ | _, SpecFloat.S754_nan => PrimFloat.nan
  | SpecFloat.S754_infinity _, _ => PrimFloat.nan
  | _, SpecFloat.S754_zero _ => PrimFloat.nan
  | SpecFloat.S754_zero _, _ => a
  | SpecFloat.S754_finite _ _ _, SpecFloat.S754_infinity _ => a
  | SpecFloat.S754_finite sa ma ea, SpecFloat.S754_finite _ mb eb =>
      let e0 := Z.min ea eb in
      let r := (Z.pos ma * 2 ^ (ea - e0)) mod (Z.pos mb * 2 ^ (eb - e0)) in
      FloatOps.SF2Prim
        (SpecFloat.binary_normalize FloatOps.prec FloatOps.emax
           (if sa then - r else r) e0 sa)
  end.

(** numpy's [a % b] on float64: [fmod], moved by [b] when its sign is not
    that of [b], and a zero with the sign of [b]. *)
Definition np_remainder (a b : PrimFloat.float) : PrimFloat.float :=
  let m := c_fmod a b in
  if PrimFloat.eqb b PrimFloat.zero then m
  else if negb (PrimFloat.eqb m PrimFloat.zero) then
    if Bool.eqb (PrimFloat.ltb b PrimFloat.zero) (PrimFloat.ltb m PrimFloat.zero)
    then m else PrimFloat.add m b
  else if PrimFloat.get_sign b then PrimFloat.neg_zero else PrimFloat.zero.

#[export] Instance Float_Arith : Arith PrimFloat.float := {
  flit := float_lit;
  fadd := PrimFloat.add;
  fsub := PrimFloat.sub;
  fmul := PrimFloat.mul;
  fdiv := PrimFloat.div;
  fmod := np_remainder;
  fle := PrimFloat.leb;
  fis_zero := fun x => PrimFloat.eqb x PrimFloat.zero;
  fceil := float_ceil
}.

(** ** Exact arithmetic: the rational numbers as number type

    An idealisation: these are not the numbers of the code. *)

#[export] Instance Qc_Arith : Arith Qc := {
  flit := Q2Qc;
  fadd := Qcplus;
  fsub := Qcminus;
  fmul := Qcmult;
  fdiv := Qcdiv;
  fmod := fun x y => Qcminus x (Qcmult y (Q2Qc (inject_Z (Qfloor (Qcdiv x y)))));
  fle := fun x y => Qle_bool x y;
  fis_zero := fun x => Qc_eq_bool x (Q2Qc 0);
  fceil := fun x => Returns (Qceiling x)
}.

(** The integer [n] as a rational number. *)
Definition Qc_of_nat (n : nat) : Qc := Q2Qc (inject_Z (Z.of_nat n)).

(** [count] instants, [step] apart, the first at [origin]. *)
Definition time_grid (origin step : Qc) (count : nat) : list Qc :=
  map (fun j => (origin + Qc_of_nat j * step)%Qc) (seq 0 count).

(** The number of instants of one generation window in exact arithmetic,
    as [np.arange] counts them. *)
Definition window_count (duration sample_rate : Qc) : nat :=
  Z.to_nat (Qceiling (duration * sample_rate)%Qc).

(** A generator whose thread is alive and has no reason to end: the flag
    is set, the sample rate is not zero, the delay is not negative and the
    buffer is well formed. *)
Definition keeps_going (w : World Qc) : Prop :=
  Inv (rb w) /\ sample_rate (gen w) <> 0%Qc /\ running (gen w) = true /\
  exists p d i, thread (gen w) = Some (Alive p d i) /\ (0 <= i)%Qc.

(** A callable that returns samples for every array of instants. *)
Definition total (f : list Qc -> outcome (list Qc)) : Prop :=
  forall t, exists samples, f t = Returns samples.

(** ** The passes of the loop, for any arithmetic *)

Section Passes.
Context {F : Type} `{Arith F}.
Variable func : list F -> outcome (list F).


(** The time vector of a pass: the values of [np.arange] moved by the time
    offset. *)
Definition shifted (ticks : list F) (offset : F) : list F :=
  map (fun x => fadd x offset) ticks.

(** What a call of the callable contributes to the buffer: the samples it
    returns. *)
Definition samples_of (o : outcome (list F)) : list F :=
  match o with
  | Returns samples => samples
  | Raises _ => []
  end.

(** The chunks that [n] passes in a row write, the first pass at the time
    offset [offset]: each pass calls [func] on its time vector and moves
    the time offset by the duration. *)
Fixpoint chunks (ticks : list F) (duration offset : F) (n : nat)
  : list (list F) :=
  match n with
  | O => []
  | S n' =>
      samples_of (func (shifted ticks offset))
      :: chunks ticks duration (fadd offset duration) n'
  end.

(** A callable that returns the instants it is given. *)
Definition echo (t : list F) : outcome (list F) := Returns t.

(** The thread of [run], one statement finer.  [thread_step] takes the
    test of the [while] and the call of [_generate_samples] in one step.
    Here the thread can also stand between the two: [entered] says that
    it has read [self.running] as true and is inside [_generate_samples],
    whose one change to the generator, the new time offset, comes at its
    end.  At the other positions the flag plays no part. *)
Definition fine_step (s : World F * bool) : World F * bool :=
  let '(w, entered) := s in
  match thread (gen w) with
  | Some (Alive AtTest duration interval) =>
      if entered then
        match _generate_samples func duration w with
        | (Returns samples, w') =>
            (snd (set_thread
                    (Some (Alive (Generated samples) duration interval)) w'),
             false)
        | (Raises _, w') => (snd (set_thread (Some Exited) w'), false)
        end
      else if running (gen w) then (w, true)
      else (snd (set_thread (Some Exited) w), false)
  | _ => (thread_step func w, false)
  end.

(** [self.thread.join()] over the finer steps. *)
Fixpoint fine_join (fuel : nat) (s : World F * bool)
  : option (World F * bool) :=
  match thread (gen (fst s)) with
  | Some (Alive _ _ _) =>
      match fuel with
      | O => None
      | S fuel' => fine_join fuel' (fine_step s)
      end
  | _ => Some s
  end.

(** [SignalGenerator.stop()] over the finer steps. *)
Definition fine_stop (fuel : nat) (s : World F * bool)
  : option (outcome unit * (World F * bool)) :=
  let s1 := (snd (set_running false (fst s)), snd s) in
  match thread (gen (fst s1)) with
  | Some _ =>
      match fine_join fuel s1 with
      | Some s2 => Some (Returns tt, s2)
      | None => None
      end
  | None => Some (Returns tt, s1)
  end.
End Passes.


(** ** A generator on doubles, for concrete runs

    A fresh buffer of four slots, a callable that returns its instants,
    no pause between the passes; the world after [passes] passes. *)
Definition fresh_buffer : RingBuffer PrimFloat.float :=
  mkRingBuffer 4 (repeat (float_lit 0) 4) 0.


(** ** class LivePlotter

    The plotter holds a reference to the ring buffer and reads its storage
    and write pointer directly.  A matplotlib line is the data it was last
    given; the figure, the labels, the title and the legend carry no data
    and are left out, the axis limits are kept. *)

(** [np.arange(n)] for an integer [n]. *)
Definition np_arange_int (n : Z) : list Z := map Z.of_nat (seq 0 (Z.to_nat n)).

(** [a[i]] with an integer index on a numpy array: a negative index
    counts from the end; [None] is the [IndexError] of an index outside. *)
Definition np_item {A : Type} (a : list A) (i : Z) : option A :=
  if (i <? - len a) || (i >=? len a) then None
  else nth_error a (Z.to_nat (if i <? 0 then i + len a else i)).

Record Line2D (F : Type) : Type := mkLine2D {
  xdata : list Z;
  ydata : list F
}.
Arguments mkLine2D {F} xdata ydata.
Arguments xdata {F} l.
Arguments ydata {F} l.

(** What [update_animation] comes to: it returns the two artists, or
    [data[ptr_x]] raises. *)
Inductive FrameResult : Type :=
| Artists
| RaisesIndexError.

Abbreviation ring_size := size (only parsing).
Abbreviation ring_storage := buffer (only parsing).

Module LivePlotter.
Record t (F : Type) : Type := mk {
  size : Z;
  interval : Z;
  line : Line2D F;
  ptr_marker : Line2D F;
  xlim : Z * Z;
  ylim : F * F
}.
Arguments mk {F} size interval line ptr_marker xlim ylim.
Arguments size {F} t.
Arguments interval {F} t.
Arguments line {F} t.
Arguments ptr_marker {F} t.
Arguments xlim {F} t.
Arguments ylim {F} t.

Section Methods.
Context {F : Type} `{Arith F}.

(** [LivePlotter(buffer, interval)] *)
Definition init (buffer : RingBuffer F) (interval : Z) : t F :=
  mk (ring_size buffer) interval (mkLine2D [] []) (mkLine2D [] [])
     (0, ring_size buffer) (flit (- 2 # 10), flit (22 # 10)).

(** [line.set_data(x, y)] and [ptr_marker.set_data(x, y)] *)
Definition set_line (l : Line2D F) (self : t F) : t F :=
  mk (size self) (interval self) l (ptr_marker self) (xlim self) (ylim self).

Definition set_ptr_marker (l : Line2D F) (self : t F) : t F :=
  mk (size self) (interval self) (line self) l (xlim self) (ylim self).

(** [LivePlotter.init_animation()] *)
Definition init_animation (self : t F) : t F :=
  set_ptr_marker (mkLine2D [] []) (set_line (mkLine2D [] []) self).

(** [LivePlotter.update_animation(frame)], with the buffer it reads; the
    line is already set when [data[ptr_x]] raises. *)
Definition update_animation (frame : Z) (buffer : RingBuffer F) (self : t F)
  : FrameResult * t F :=
  let data := ring_storage buffer in
  let x_vals := np_arange_int (size self) in
  let self1 := set_line (mkLine2D x_vals data) self in
  let ptr_x := write_ptr buffer in
  match np_item data ptr_x with
  | None => (RaisesIndexError, self1)
  | Some ptr_y => (Artists, set_ptr_marker (mkLine2D [ptr_x] [ptr_y]) self1)
  end.
End Methods.
End LivePlotter.

(** ** Slices with bounds inside the list *)

Section SliceFacts.
Context {A : Type}.
Implicit Types l buf value : list A.

Lemma adjust_index_inside n i : 0 <= i <= n -> adjust_index n i = i.
Proof.
  intros H. unfold adjust_index.
  destruct (Z.ltb_spec i 0); [lia|].
  rewrite Z.geb_leb. destruct (Z.leb_spec n i); lia.
Qed.

Lemma adjust_index_negative n i : - n <= i < 0 -> adjust_index n i = i + n.
Proof.
  intros H. unfold adjust_index.
  destruct (Z.ltb_spec i 0); [|lia].
  destruct (Z.ltb_spec (i + n) 0); lia.
Qed.

Lemma py_slice_from l (lo : nat) :
  (lo <= length l)%nat ->
  py_slice l (Some (Z.of_nat lo)) None = skipn lo l.
Proof.
  intros H. unfold py_slice, slice_bounds, len.
  rewrite adjust_index_inside by lia. rewrite Nat2Z.id.
  apply firstn_all2. rewrite length_skipn. lia.
Qed.

Lemma py_slice_to l (hi : nat) :
  (hi <= length l)%nat ->
  py_slice l None (Some (Z.of_nat hi)) = firstn hi l.
Proof.
  intros H. unfold py_slice, slice_bounds, len.
  rewrite adjust_index_inside by lia. cbn [Z.to_nat skipn].
  f_equal. lia.
Qed.

Lemma py_slice_range l (lo hi : nat) :
  (lo <= hi <= length l)%nat ->
  py_slice l (Some (Z.of_nat lo)) (Some (Z.of_nat hi))
  = firstn (hi - lo) (skipn lo l).
Proof.
  intros H. unfold py_slice, slice_bounds, len.
  rewrite !adjust_index_inside by lia. rewrite Nat2Z.id.
  f_equal. lia.
Qed.

Lemma py_slice_tail l (c : nat) :
  (0 < c <= length l)%nat ->
  py_slice l (Some (- Z.of_nat c)) None = lastn c l.
Proof.
  intros H. unfold py_slice, slice_bounds, len, lastn.
  rewrite adjust_index_negative by lia.
  replace (Z.to_nat (- Z.of_nat c + Z.of_nat (length l)))
    with (length l - c)%nat by lia.
  apply firstn_all2. rewrite length_skipn. lia.
Qed.

Lemma np_setitem_range buf (lo hi : nat) value :
  (lo <= hi <= length buf)%nat -> length value = (hi - lo)%nat ->
  np_setitem buf (Some (Z.of_nat lo)) (Some (Z.of_nat hi)) value
  = Returns (firstn lo buf ++ value ++ skipn hi buf).
Proof.
  intros H Hv. unfold np_setitem, slice_bounds, len.
  rewrite !adjust_index_inside by lia. rewrite Nat2Z.id.
  replace (Z.to_nat (Z.of_nat hi - Z.of_nat lo)) with (hi - lo)%nat by lia.
  rewrite Hv, Nat.eqb_refl.
  replace (lo + (hi - lo))%nat with hi by lia. reflexivity.
Qed.

Lemma np_setitem_from buf (lo : nat) value :
  (lo <= length buf)%nat -> length value = (length buf - lo)%nat ->
  np_setitem buf (Some (Z.of_nat lo)) None value
  = Returns (firstn lo buf ++ value).
Proof.
  intros H Hv. unfold np_setitem, slice_bounds, len.
  rewrite adjust_index_inside by lia. rewrite Nat2Z.id.
  replace (Z.to_nat (Z.of_nat (length buf) - Z.of_nat lo))
    with (length buf - lo)%nat by lia.
  rewrite Hv, Nat.eqb_refl.
  rewrite (skipn_all2 buf) by lia. now rewrite app_nil_r.
Qed.

Lemma np_setitem_all buf value :
  length value = length buf ->
  np_setitem buf None None value = Returns value.
Proof.
  intros Hv. unfold np_setitem, slice_bounds, len.
  rewrite Z.sub_0_r, Nat2Z.id, Hv, Nat.eqb_refl. cbn [Z.to_nat firstn app].
  rewrite skipn_all2 by lia. now rewrite app_nil_r.
Qed.

Lemma skipn_app_exact l1 l2 n : length l1 = n -> skipn n (l1 ++ l2) = l2.
Proof. intros <-. rewrite skipn_app, skipn_all, Nat.sub_diag. reflexivity. Qed.

Lemma firstn_app_exact l1 l2 n : length l1 = n -> firstn n (l1 ++ l2) = l1.
Proof.
  intros <-. rewrite firstn_app, firstn_all, Nat.sub_diag. cbn.
  apply app_nil_r.
Qed.

Lemma skipn_app_le l1 l2 n :
  (n <= length l1)%nat -> skipn n (l1 ++ l2) = skipn n l1 ++ l2.
Proof.
  intros H. rewrite skipn_app.
  replace (n - length l1)%nat with 0%nat by lia. reflexivity.
Qed.

Lemma firstn_app_le l1 l2 n :
  (n <= length l1)%nat -> firstn n (l1 ++ l2) = firstn n l1.
Proof.
  intros H. rewrite firstn_app.
  replace (n - length l1)%nat with 0%nat by lia. cbn. apply app_nil_r.
Qed.

Lemma length_lastn k l : (k <= length l)%nat -> length (lastn k l) = k.
Proof. intros H. unfold lastn. rewrite length_skipn. lia. Qed.

Lemma lastn_all k l : (length l <= k)%nat -> lastn k l = l.
Proof.
  intros H. unfold lastn.
  replace (length l - k)%nat with 0%nat by lia. reflexivity.
Qed.

Lemma lastn_app_long k l d :
  (k <= length d)%nat -> lastn k (l ++ d) = lastn k d.
Proof.
  intros H. unfold lastn. rewrite length_app, skipn_app.
  rewrite skipn_all2 by lia. cbn [app]. f_equal. lia.
Qed.

Lemma lastn_app_short k l d :
  (length d <= k)%nat -> lastn k (l ++ d) = lastn (k - length d) l ++ d.
Proof.
  intros H. unfold lastn. rewrite length_app, skipn_app.
  replace (length l + length d - k - length l)%nat with 0%nat by lia.
  cbn [skipn]. f_equal. f_equal. lia.
Qed.

Lemma lastn_lastn_app k l d :
  lastn k (lastn k l ++ d) = lastn k (l ++ d).
Proof.
  destruct (Nat.le_gt_cases k (length d)) as [Hd|Hd].
  - now rewrite !lastn_app_long.
  - rewrite !lastn_app_short by lia. f_equal.
    unfold lastn. rewrite length_skipn, skipn_skipn. f_equal. lia.
Qed.

Lemma lastn_lastn j k l : (j <= k)%nat -> lastn j (lastn k l) = lastn j l.
Proof.
  intros H. unfold lastn. rewrite length_skipn, skipn_skipn. f_equal. lia.
Qed.
End SliceFacts.

(** ** What [write] and [read_latest] do on a buffer that satisfies the
       invariant *)

Section RingBufferFacts.
Context {A : Type}.
Variable zero : A.
Implicit Types (rb : RingBuffer A) (data buf : list A).

Lemma Inv_shape rb :
  Inv rb ->
  exists w : nat,
    (w < length (buffer rb))%nat /\
    rb = mkRingBuffer (Z.of_nat (length (buffer rb))) (buffer rb) (Z.of_nat w).
Proof.
  destruct rb as [sz buf wp]. unfold Inv, len. cbn. intros (Hs & Hl & Hw).
  exists (Z.to_nat wp). split; [lia|].
  rewrite Z2Nat.id by lia. now rewrite Hl.
Qed.

Lemma Inv_intro buf (w : nat) :
  (w < length buf)%nat ->
  Inv (mkRingBuffer (Z.of_nat (length buf)) buf (Z.of_nat w)).
Proof. intros H. unfold Inv, len. cbn. lia. Qed.

Lemma RingBuffer_init_returns sz :
  0 <= sz ->
  RingBuffer_init zero sz
  = Returns (mkRingBuffer sz (repeat zero (Z.to_nat sz)) 0).
Proof.
  intros H. unfold RingBuffer_init, np_zeros.
  destruct (Z.ltb_spec sz 0); [lia|reflexivity].
Qed.

Lemma RingBuffer_init_Inv sz rb :
  0 < sz -> RingBuffer_init zero sz = Returns rb -> Inv rb.
Proof.
  intros H. rewrite RingBuffer_init_returns by lia. intros [= <-].
  unfold Inv, len. cbn. rewrite repeat_length. lia.
Qed.

(** A chunk at least as long as the buffer replaces the storage. *)
Lemma write_full buf (w : nat) data :
  (0 < length buf <= length data)%nat ->
  write data (mkRingBuffer (Z.of_nat (length buf)) buf (Z.of_nat w))
  = (Returns tt,
     mkRingBuffer (Z.of_nat (length buf)) (lastn (length buf) data) 0).
Proof.
  intros H. unfold write, bind, get, len. cbn [size buffer write_ptr].
  rewrite Z.geb_leb. destruct (Z.leb_spec (Z.of_nat (length buf))
                                 (Z.of_nat (length data))); [|lia].
  unfold buffer_setitem, bind, get, lift, set_buffer, set_write_ptr, modify.
  cbn [size buffer write_ptr].
  rewrite py_slice_tail by lia.
  rewrite np_setitem_all by (rewrite length_lastn; lia).
  reflexivity.
Qed.

(** A shorter chunk that fits before the end of the storage. *)
Lemma write_nowrap buf (w : nat) data :
  (w + length data < length buf)%nat ->
  write data (mkRingBuffer (Z.of_nat (length buf)) buf (Z.of_nat w))
  = (Returns tt,
     mkRingBuffer (Z.of_nat (length buf))
       (firstn w buf ++ data ++ skipn (w + length data) buf)
       (Z.of_nat (w + length data))).
Proof.
  intros H. unfold write, bind, get, len. cbn [size buffer write_ptr].
  rewrite Z.geb_leb. destruct (Z.leb_spec (Z.of_nat (length buf))
                                 (Z.of_nat (length data))); [lia|].
  unfold lift at 1, py_mod.
  destruct (Z.eqb_spec (Z.of_nat (length buf)) 0); [lia|].
  rewrite Z.mod_small by lia.
  destruct (Z.ltb_spec (Z.of_nat w + Z.of_nat (length data)) (Z.of_nat w));
    [lia|].
  unfold buffer_setitem, bind, get, lift, set_buffer, set_write_ptr, modify.
  cbn [size buffer write_ptr].
  rewrite <- Nat2Z.inj_add.
  rewrite np_setitem_range by lia. reflexivity.
Qed.

(** A shorter chunk that reaches the end of the storage and continues at
    index 0. *)
Lemma write_wrap buf (w : nat) data :
  (w < length buf)%nat -> (length data < length buf)%nat ->
  (length buf <= w + length data)%nat ->
  write data (mkRingBuffer (Z.of_nat (length buf)) buf (Z.of_nat w))
  = (Returns tt,
     mkRingBuffer (Z.of_nat (length buf))
       (skipn (length buf - w) data
        ++ skipn (w + length data - length buf) (firstn w buf)
        ++ firstn (length buf - w) data)
       (Z.of_nat (w + length data - length buf))).
Proof.
  intros Hw Hn Hc. unfold write, bind, get, len. cbn [size buffer write_ptr].
  rewrite Z.geb_leb. destruct (Z.leb_spec (Z.of_nat (length buf))
                                 (Z.of_nat (length data))); [lia|].
  unfold lift at 1, py_mod.
  destruct (Z.eqb_spec (Z.of_nat (length buf)) 0); [lia|].
  replace ((Z.of_nat w + Z.of_nat (length data)) mod Z.of_nat (length buf))
    with (Z.of_nat (w + length data - length buf)).
  2:{ apply Z.mod_unique with (q := 1); lia. }
  destruct (Z.ltb_spec (Z.of_nat (w + length data - length buf)) (Z.of_nat w));
    [|lia].
  unfold buffer_setitem, bind, get, lift, set_buffer, set_write_ptr, modify.
  cbn [size buffer write_ptr].
  replace (Z.of_nat (length buf) - Z.of_nat w)
    with (Z.of_nat (length buf - w)) by lia.
  rewrite py_slice_to by lia.
  rewrite np_setitem_from by (rewrite ?length_firstn; lia).
  cbn [size buffer write_ptr].
  rewrite py_slice_from by lia.
  change 0 with (Z.of_nat 0).
  rewrite np_setitem_range.
  - cbn [firstn app]. rewrite skipn_app, length_firstn.
    replace (w + length data - length buf - Nat.min w (length buf))%nat
      with 0%nat by lia.
    reflexivity.
  - rewrite length_app, !length_firstn. lia.
  - rewrite length_skipn. lia.
Qed.

(** In every case the chronological view gains the chunk at its newest
    end and keeps its length. *)
Lemma write_view rb data :
  Inv rb ->
  exists rb',
    write data rb = (Returns tt, rb') /\ Inv rb' /\ size rb' = size rb /\
    view rb' = lastn (Z.to_nat (size rb)) (view rb ++ data).
Proof.
  intros HI. destruct (Inv_shape rb HI) as (w & Hw & ->).
  cbn [size buffer write_ptr]. rewrite Nat2Z.id.
  set (c := length (buffer rb)) in *. set (buf := buffer rb) in *.
  assert (Hview : length (skipn w buf ++ firstn w buf) = c).
  { rewrite length_app, length_skipn, length_firstn. fold c. lia. }
  unfold view at 2. cbn [size buffer write_ptr]. rewrite Nat2Z.id.
  destruct (Nat.le_gt_cases c (length data)) as [Hfull|Hshort].
  - eexists. split; [apply write_full; fold c; lia|].
    split; [|split; [reflexivity|]].
    + unfold Inv, len. cbn. rewrite length_lastn by (fold c; lia). fold c. lia.
    + unfold view. cbn. rewrite app_nil_r.
      now rewrite lastn_app_long by lia.
  - destruct (Nat.le_gt_cases c (w + length data)) as [Hwrap|Hfit].
    + eexists. split; [apply write_wrap; fold c; lia|].
      split; [|split; [reflexivity|]].
      * unfold Inv, len. cbn.
        rewrite !length_app, !length_skipn, !length_firstn. fold c. lia.
      * unfold view. cbn [size buffer write_ptr]. rewrite Nat2Z.id. fold c.
        set (e := (w + length data - c)%nat).
        assert (He : length (skipn (c - w) data) = e).
        { rewrite length_skipn. lia. }
        rewrite (skipn_app_exact _ _ e He), (firstn_app_exact _ _ e He).
        unfold lastn. rewrite length_app, Hview.
        replace (c + length data - c)%nat with (length data) by lia.
        rewrite skipn_app_le by (rewrite Hview; lia).
        rewrite skipn_app, length_skipn. fold c.
        rewrite (skipn_all2 (skipn w buf)) by (rewrite length_skipn; fold c; lia).
        replace (length data - (c - w))%nat with e by lia.
        cbn [app]. rewrite <- !app_assoc. f_equal.
        apply firstn_skipn.
    + eexists. split; [apply write_nowrap; fold c; lia|].
      split; [|split; [reflexivity|]].
      * unfold Inv, len. cbn.
        rewrite !length_app, !length_skipn, !length_firstn. fold c. lia.
      * unfold view. cbn [size buffer write_ptr]. rewrite Nat2Z.id. fold c.
        assert (Hf : length (firstn w buf ++ data) = (w + length data)%nat).
        { rewrite length_app, length_firstn. fold c. lia. }
        rewrite (app_assoc (firstn w buf) data).
        rewrite (skipn_app_exact _ _ _ Hf), (firstn_app_exact _ _ _ Hf).
        unfold lastn. rewrite length_app, Hview.
        replace (c + length data - c)%nat with (length data) by lia.
        rewrite skipn_app_le by (rewrite Hview; lia).
        rewrite skipn_app_le by (rewrite length_skipn; fold c; lia).
        rewrite skipn_skipn, <- !app_assoc.
        replace (length data + w)%nat with (w + length data)%nat by lia.
        reflexivity.
Qed.

(** Where a shorter chunk lands, slot by slot: slot [j] takes the sample
    whose offset from the write pointer, counted around the ring, is
    below the chunk length, and keeps its content otherwise. *)
Lemma write_slots buf (w : nat) data rb' :
  (w < length buf)%nat -> (length data < length buf)%nat ->
  write data (mkRingBuffer (Z.of_nat (length buf)) buf (Z.of_nat w))
  = (Returns tt, rb') ->
  forall j : nat, (j < length buf)%nat ->
    nth_error (buffer rb') j
    = if (j <? w)%nat
      then (if (j + length buf - w <? length data)%nat
            then nth_error data (j + length buf - w) else nth_error buf j)
      else (if (j - w <? length data)%nat
            then nth_error data (j - w) else nth_error buf j).
Proof.
  intros Hw Hn Hrun j Hj.
  destruct (Nat.le_gt_cases (length buf) (w + length data)) as [Hwrap|Hfit].
  - rewrite write_wrap in Hrun by lia. injection Hrun as <-.
    cbn [buffer]. set (c := length buf) in *.
    set (e := (w + length data - c)%nat).
    assert (He : length (skipn (c - w) data) = e)
      by (rewrite length_skipn; lia).
    assert (Hb : length (skipn e (firstn w buf)) = (w - e)%nat)
      by (rewrite length_skipn, length_firstn; fold c; lia).
    rewrite !nth_error_app, He, Hb.
    rewrite !nth_error_skipn, !nth_error_firstn.
    destruct (Nat.ltb_spec j w); destruct (Nat.ltb_spec j e);
      destruct (Nat.ltb_spec (j + c - w) (length data));
      destruct (Nat.ltb_spec (j - w) (length data));
      destruct (Nat.ltb_spec (j - e) (w - e));
      destruct (Nat.ltb_spec (e + (j - e)) w);
      destruct (Nat.ltb_spec (j - e - (w - e)) (c - w));
      try lia; try (f_equal; lia).
  - rewrite write_nowrap in Hrun by lia. injection Hrun as <-.
    cbn [buffer]. set (c := length buf) in *.
    assert (Hf : length (firstn w buf) = w)
      by (rewrite length_firstn; fold c; lia).
    rewrite !nth_error_app, Hf.
    rewrite !nth_error_skipn, !nth_error_firstn.
    destruct (Nat.ltb_spec j w);
      destruct (Nat.ltb_spec (j + c - w) (length data));
      destruct (Nat.ltb_spec (j - w) (length data));
      try lia; try (f_equal; lia).
Qed.

(** A read of at most [size] samples is the newest end of the
    chronological view, and leaves the buffer as it was. *)
Lemma read_latest_view rb (k : nat) :
  Inv rb -> Z.of_nat k <= size rb ->
  read_latest (Z.of_nat k) rb = (Returns (lastn k (view rb)), rb).
Proof.
  intros HI Hk. destruct (Inv_shape rb HI) as (w & Hw & E).
  set (c := length (buffer rb)) in *. set (buf := buffer rb) in *.
  rewrite E in Hk |- * at 1 2. cbn [size] in Hk.
  assert (Hview : length (skipn w buf ++ firstn w buf) = c).
  { rewrite length_app, length_skipn, length_firstn. fold c. lia. }
  unfold read_latest, bind, get, view. cbn [size buffer write_ptr].
  rewrite Nat2Z.id, Z.gtb_ltb.
  destruct (Z.ltb_spec (Z.of_nat c) (Z.of_nat k)); [lia|].
  unfold lift, py_mod.
  destruct (Z.eqb_spec (Z.of_nat c) 0); [lia|].
  unfold lastn. rewrite Hview.
  destruct (Nat.le_gt_cases k w) as [Hle|Hgt].
  - replace ((Z.of_nat w - Z.of_nat k) mod Z.of_nat c)
      with (Z.of_nat (w - k)) by (rewrite Z.mod_small; lia).
    replace (Z.of_nat (w - k) + Z.of_nat k) with (Z.of_nat w) by lia.
    destruct (Z.leb_spec (Z.of_nat w) (Z.of_nat c)); [|lia].
    unfold ret. rewrite py_slice_range by (fold c; lia).
    rewrite skipn_app, length_skipn. fold c.
    rewrite (skipn_all2 (skipn w buf)) by (rewrite length_skipn; fold c; lia).
    cbn [app]. rewrite skipn_firstn_comm.
    replace (c - k - (c - w))%nat with (w - k)%nat by lia.
    replace (w - (w - k))%nat with k by lia. rewrite E. reflexivity.
  - replace ((Z.of_nat w - Z.of_nat k) mod Z.of_nat c)
      with (Z.of_nat (c + w - k)).
    2:{ apply Z.mod_unique with (q := -1); lia. }
    replace (Z.of_nat (c + w - k) + Z.of_nat k) with (Z.of_nat (c + w)) by lia.
    destruct (Z.leb_spec (Z.of_nat (c + w)) (Z.of_nat c)).
    + assert (w = 0)%nat as -> by lia.
      unfold ret. rewrite py_slice_range by (fold c; lia).
      cbn [skipn firstn]. rewrite app_nil_r.
      rewrite firstn_all2 by (rewrite length_skipn; fold c; lia).
      replace (c + 0 - k)%nat with (c - k)%nat by lia. rewrite E. reflexivity.
    + unfold ret, np_concatenate.
      rewrite py_slice_from by (fold c; lia).
      replace (Z.of_nat (c + w) - Z.of_nat c) with (Z.of_nat w) by lia.
      rewrite py_slice_to by (fold c; lia).
      rewrite skipn_app_le by (rewrite length_skipn; fold c; lia).
      rewrite skipn_skipn.
      replace (c - k + w)%nat with (c + w - k)%nat by lia.
      rewrite E. reflexivity.
Qed.
End RingBufferFacts.

(** ** Reachable buffers *)

Section ReachableFacts.
Context {A : Type}.
Variable zero : A.
Implicit Types (rb : RingBuffer A) (data history : list A).

(** [read_latest] never changes the buffer, whatever it returns or raises. *)
Lemma read_latest_state rb n : snd (read_latest n rb) = rb.
Proof.
  unfold read_latest, bind, get, raise, lift, ret, py_mod.
  destruct (n >? size rb); [reflexivity|].
  destruct (size rb =? 0); [reflexivity|].
  destruct (_ <=? _); reflexivity.
Qed.

Lemma reachable_Inv rb history : reachable zero rb history -> Inv rb.
Proof.
  induction 1 as [sz rb Hsz Hinit | rb history data out rb' _ IH Hw
                 | rb history n out rb' _ IH Hr].
  - eapply RingBuffer_init_Inv; eauto.
  - destruct (write_view rb data IH) as (rb2 & E & HI & _).
    rewrite E in Hw. now injection Hw as _ <-.
  - pose proof (read_latest_state rb n) as E. rewrite Hr in E. cbn in E.
    now subst rb'.
Qed.

Lemma reachable_size rb history :
  reachable zero rb history -> 0 < size rb /\ len (buffer rb) = size rb.
Proof. intros HR. destruct (reachable_Inv _ _ HR) as (? & ? & ?). auto. Qed.

(** The chronological view of a reachable buffer is the newest end of
    everything written so far, on top of the zeros the buffer started
    with. *)
Lemma reachable_view rb history :
  reachable zero rb history ->
  view rb
  = lastn (Z.to_nat (size rb)) (repeat zero (Z.to_nat (size rb)) ++ history).
Proof.
  induction 1 as [sz rb Hsz Hinit | rb history data out rb' HR IH Hw
                 | rb history n out rb' HR IH Hr].
  - rewrite RingBuffer_init_returns in Hinit by lia. injection Hinit as <-.
    unfold view. cbn. rewrite !app_nil_r.
    now rewrite lastn_all by (rewrite repeat_length; lia).
  - destruct (write_view rb data (reachable_Inv _ _ HR)) as (rb2 & E & _ & Hs & Hv).
    rewrite E in Hw. injection Hw as _ <-.
    rewrite Hv, Hs, IH, app_assoc. apply lastn_lastn_app.
  - pose proof (read_latest_state rb n) as E. rewrite Hr in E. cbn in E.
    now subst rb'.
Qed.

(** A run of writes from a buffer that satisfies the invariant returns,
    and the invariant holds at its end. *)
Lemma writes_Inv chunks : forall rb,
  Inv rb ->
  exists rb', writes chunks rb = (Returns tt, rb') /\ Inv rb' /\ size rb' = size rb.
Proof.
  induction chunks as [|data rest IH]; intros rb HI.
  - exists rb. cbn. auto.
  - destruct (write_view rb data HI) as (rb1 & E & HI1 & Hs1 & _).
    destruct (IH rb1 HI1) as (rb2 & E2 & HI2 & Hs2).
    exists rb2. cbn [writes]. unfold bind. rewrite E.
    repeat split; try apply HI2; [exact E2 | congruence].
Qed.
End ReachableFacts.

(** ** The ring buffer: writes *)

Section WriteClaims.
Context {A : Type}.
Variable zero : A.
Implicit Types (rb : RingBuffer A) (data history : list A).

(** The slot that is [i] places after slot [w], counted around a ring of
    [c] slots. *)
Lemma ring_index (w i c : nat) :
  (w < c)%nat -> (i < c)%nat ->
  Z.to_nat ((Z.of_nat w + Z.of_nat i) mod Z.of_nat c)
  = if (w + i <? c)%nat then (w + i)%nat else (w + i - c)%nat.
Proof.
  intros Hw Hi. destruct (Nat.ltb_spec (w + i) c).
  - rewrite Z.mod_small by lia. lia.
  - replace ((Z.of_nat w + Z.of_nat i) mod Z.of_nat c)
      with (Z.of_nat (w + i - c)); [lia|].
    apply Z.mod_unique with (q := 1); lia.
Qed.

(** C1. A write of fewer samples than the buffer holds, into any reachable
    buffer, returns; it copies sample [i] into slot
    [(write_ptr + i) mod size], so the copy starts at the write pointer and
    continues at index 0 after the last slot; it leaves every other slot
    alone; and the write pointer becomes [(write_ptr + N) mod size].  With
    size 4, writing three samples and then two makes [read_latest(4)]
    return the last four of the five. *)
Theorem write_short_chunk rb history data :
  reachable zero rb history -> len data < size rb ->
  exists rb',
    write data rb = (Returns tt, rb') /\
    size rb' = size rb /\
    write_ptr rb' = (write_ptr rb + len data) mod size rb /\
    (forall i : nat, (i < length data)%nat ->
       nth_error (buffer rb')
         (Z.to_nat ((write_ptr rb + Z.of_nat i) mod size rb))
       = nth_error data i) /\
    (forall j : nat, (j < length (buffer rb))%nat ->
       (forall i : nat, (i < length data)%nat ->
          Z.of_nat j <> (write_ptr rb + Z.of_nat i) mod size rb) ->
       nth_error (buffer rb') j = nth_error (buffer rb) j) /\
    (forall rb0 a1 a2 a3 a4 a5,
       RingBuffer_init zero 4 = Returns rb0 ->
       fst ((writes [[a1; a2; a3]; [a4; a5]] ;; read_latest 4) rb0)
       = Returns [a2; a3; a4; a5]).
Proof.
  intros HR Hn. pose proof (reachable_Inv zero _ _ HR) as HI.
  destruct (write_view rb data HI) as (rb' & E & _ & Hs & _).
  exists rb'. split; [exact E|]. split; [exact Hs|].
  destruct (Inv_shape rb HI) as (w & Hw & Erb).
  rewrite Erb in E, Hn |- *. cbn [size write_ptr buffer] in *.
  unfold len in Hn |- *.
  pose proof (write_slots (buffer rb) w data rb' Hw ltac:(lia) E) as Hslots.
  assert (Hptr : write_ptr rb'
                 = (Z.of_nat w + Z.of_nat (length data))
                     mod Z.of_nat (length (buffer rb))).
  { destruct (Nat.le_gt_cases (length (buffer rb)) (w + length data)).
    - rewrite write_wrap in E by lia. injection E as <-. cbn.
      apply Z.mod_unique with (q := 1); lia.
    - rewrite write_nowrap in E by lia. injection E as <-. cbn.
      rewrite Z.mod_small; lia. }
  clear E. set (c := length (buffer rb)) in *.
  split; [exact Hptr|]. split; [|split].
  - intros i Hi. rewrite ring_index by lia.
    destruct (Nat.ltb_spec (w + i) c).
    + rewrite Hslots by lia.
      destruct (Nat.ltb_spec (w + i) w); [lia|].
      destruct (Nat.ltb_spec (w + i - w) (length data)); [|lia].
      f_equal. lia.
    + rewrite Hslots by lia.
      destruct (Nat.ltb_spec (w + i - c) w); [|lia].
      destruct (Nat.ltb_spec (w + i - c + c - w) (length data)); [|lia].
      f_equal. lia.
  - intros j Hj Hfree. rewrite Hslots by lia.
    destruct (Nat.ltb_spec j w).
    + destruct (Nat.ltb_spec (j + c - w) (length data)); [|reflexivity].
      exfalso. apply (Hfree (j + c - w)%nat); [lia|].
      pose proof (ring_index w (j + c - w) c Hw ltac:(lia)) as R.
      destruct (Nat.ltb_spec (w + (j + c - w)) c); [lia|].
      pose proof (Z.mod_pos_bound (Z.of_nat w + Z.of_nat (j + c - w))
                    (Z.of_nat c) ltac:(lia)). lia.
    + destruct (Nat.ltb_spec (j - w) (length data)); [|reflexivity].
      exfalso. apply (Hfree (j - w)%nat); [lia|].
      rewrite Z.mod_small; lia.
  - intros rb0 a1 a2 a3 a4 a5 Hinit.
    rewrite RingBuffer_init_returns in Hinit by lia. injection Hinit as <-.
    reflexivity.
Qed.

(** C2. A write of at least as many samples as the buffer holds, into any
    reachable buffer, returns; the storage is then the last [size] samples
    of the chunk and the write pointer is 0.  With size 4, writing six
    samples in one call makes [read_latest(4)] return the last four, with
    the write pointer at 0. *)
Theorem write_long_chunk rb history data :
  reachable zero rb history -> len data >= size rb ->
  exists rb',
    write data rb = (Returns tt, rb') /\
    size rb' = size rb /\
    buffer rb' = lastn (Z.to_nat (size rb)) data /\
    write_ptr rb' = 0 /\
    (forall rb0 a1 a2 a3 a4 a5 a6,
       RingBuffer_init zero 4 = Returns rb0 ->
       exists rb1,
         (write [a1; a2; a3; a4; a5; a6] ;; read_latest 4) rb0
         = (Returns [a3; a4; a5; a6], rb1) /\
         write_ptr rb1 = 0).
Proof.
  intros HR Hn. pose proof (reachable_Inv zero _ _ HR) as HI.
  destruct (Inv_shape rb HI) as (w & Hw & Erb).
  destruct rb as [sz buf wp]. cbn [size write_ptr buffer] in *.
  injection Erb as -> ->. unfold len in Hn. rewrite Nat2Z.id.
  eexists. split; [apply write_full; lia|]. cbn [size buffer write_ptr].
  do 3 (split; [reflexivity|]).
  intros rb0 a1 a2 a3 a4 a5 a6 Hinit.
  rewrite RingBuffer_init_returns in Hinit by lia. injection Hinit as <-.
  eexists. split; reflexivity.
Qed.

(** C6. A buffer constructed with a positive size has storage of that
    length and the write pointer inside it; every write from a buffer in
    that condition returns and leaves the buffer in that condition, with
    the size untouched; so does every run of writes, whatever the lengths
    of the chunks. *)
Theorem capacity_invariant (capacity : Z) (chunks : list (list A)) :
  0 < capacity ->
  exists rb0,
    RingBuffer_init zero capacity = Returns rb0 /\
    Inv rb0 /\ size rb0 = capacity /\
    (exists rb',
       writes chunks rb0 = (Returns tt, rb') /\
       size rb' = capacity /\
       len (buffer rb') = capacity /\
       0 <= write_ptr rb' < capacity) /\
    (forall rb data,
       Inv rb ->
       exists rb',
         write data rb = (Returns tt, rb') /\
         size rb' = size rb /\
         len (buffer rb') = size rb /\
         0 <= write_ptr rb' < size rb).
Proof.
  intros Hc. eexists. split; [apply RingBuffer_init_returns; lia|].
  assert (HI : Inv (mkRingBuffer capacity (repeat zero (Z.to_nat capacity)) 0)).
  { eapply RingBuffer_init_Inv; [exact Hc|]. apply RingBuffer_init_returns. lia. }
  split; [exact HI|]. split; [reflexivity|]. split.
  - destruct (writes_Inv chunks _ HI) as (rb' & E & (H1 & H2 & H3) & Hs).
    cbn [size] in Hs. exists rb'. split; [exact E|]. split; [exact Hs|].
    rewrite <- Hs. split; [exact H2|exact H3].
  - intros rb data HIrb.
    destruct (write_view rb data HIrb) as (rb' & E & (H1 & H2 & H3) & Hs & _).
    exists rb'. split; [exact E|]. split; [exact Hs|].
    rewrite <- Hs. split; [exact H2|exact H3].
Qed.
End WriteClaims.

(** ** The ring buffer: reads *)

Section ReadClaims.
Context {A : Type}.
Variable zero : A.
Implicit Types (rb : RingBuffer A) (data history : list A).

Lemma lastn_repeat (z : A) (k c : nat) :
  (k <= c)%nat -> lastn k (repeat z c) = repeat z k.
Proof.
  intros H. unfold lastn. rewrite repeat_length.
  replace c with ((c - k) + k)%nat at 2 by lia.
  rewrite repeat_app. apply skipn_app_exact. apply repeat_length.
Qed.

(** A read from a reachable buffer returns the newest [n] of: the zeros
    the buffer started with, followed by all samples written. *)
Lemma read_latest_history rb history n :
  reachable zero rb history -> 0 <= n <= size rb ->
  read_latest n rb
  = (Returns (lastn (Z.to_nat n)
                (repeat zero (Z.to_nat (size rb)) ++ history)), rb).
Proof.
  intros HR Hn. pose proof (reachable_Inv zero _ _ HR) as HI.
  rewrite <- (Z2Nat.id n) at 1 by lia.
  rewrite read_latest_view by (try exact HI; lia).
  rewrite (reachable_view zero _ _ HR).
  rewrite lastn_lastn by lia. reflexivity.
Qed.

(** C3. A read of [n] samples, [1 <= n <= size], from any reachable buffer
    returns the newest [n] samples of what was written, oldest first (and
    the zeros of the fresh buffer before them while fewer than [n] samples
    have been written).  So a chunk of [k] samples written in one call
    into a fresh buffer of size at least [k] is what [read_latest(k)]
    returns, in order. *)
Theorem read_latest_chronological rb history n :
  reachable zero rb history -> 1 <= n <= size rb ->
  read_latest n rb
  = (Returns (lastn (Z.to_nat n)
                (repeat zero (Z.to_nat (size rb)) ++ history)), rb) /\
  (n <= len history ->
   read_latest n rb = (Returns (lastn (Z.to_nat n) history), rb)) /\
  (forall capacity chunk rb0,
     1 <= len chunk <= capacity ->
     RingBuffer_init zero capacity = Returns rb0 ->
     fst ((write chunk ;; read_latest (len chunk)) rb0) = Returns chunk).
Proof.
  intros HR Hn. split; [|split].
  - apply read_latest_history; [exact HR|lia].
  - intros Hh. rewrite (read_latest_history _ _ _ HR) by lia.
    unfold len in Hh. now rewrite lastn_app_long by lia.
  - intros capacity chunk rb0 Hk Hinit.
    assert (HR0 : reachable zero rb0 []) by (eapply reachable_init; eauto; lia).
    destruct (write_view rb0 chunk (reachable_Inv zero _ _ HR0))
      as (rb1 & E & _ & Hs & _).
    assert (HR1 : reachable zero rb1 ([] ++ chunk))
      by (eapply reachable_write; eauto).
    cbn [app] in HR1. unfold bind. rewrite E.
    assert (size rb0 = capacity) as Hs0.
    { rewrite RingBuffer_init_returns in Hinit by lia. now injection Hinit as <-. }
    rewrite (read_latest_history _ _ _ HR1) by lia. cbn [fst]. f_equal.
    unfold len. rewrite Nat2Z.id, lastn_app_long by lia.
    apply lastn_all. lia.
Qed.

(** C5. For a positive count, [read_latest] raises exactly when the count
    is above the size, the exception is the out-of-range [ValueError] and
    no other, the call returns samples otherwise, and the buffer is the
    same afterwards in both cases.  So [read_latest(size + 1)] raises and
    [read_latest(size)] returns.  A write into a reachable buffer never
    raises. *)
Theorem read_latest_out_of_range rb n :
  0 < n ->
  (fst (read_latest n rb) = Raises out_of_range <-> n > size rb) /\
  (n <= size rb -> exists samples, fst (read_latest n rb) = Returns samples) /\
  (forall e, fst (read_latest n rb) = Raises e -> e = out_of_range) /\
  snd (read_latest n rb) = rb /\
  (0 < size rb ->
   fst (read_latest (size rb + 1) rb) = Raises out_of_range /\
   exists samples, fst (read_latest (size rb) rb) = Returns samples) /\
  (forall history data,
     reachable zero rb history -> fst (write data rb) = Returns tt).
Proof.
  intros Hn.
  assert (Hhigh : forall m, m > size rb ->
                   fst (read_latest m rb) = Raises out_of_range).
  { intros m Hm. unfold read_latest, bind, get, raise.
    rewrite Z.gtb_ltb. destruct (Z.ltb_spec (size rb) m); [reflexivity|lia]. }
  assert (Hlow : forall m, 0 < m <= size rb ->
                  exists samples, fst (read_latest m rb) = Returns samples).
  { intros m Hm. unfold read_latest, bind, get, raise, lift, ret, py_mod.
    rewrite Z.gtb_ltb. destruct (Z.ltb_spec (size rb) m); [lia|].
    destruct (Z.eqb_spec (size rb) 0); [lia|].
    destruct (_ <=? _); eexists; reflexivity. }
  split; [|split; [|split; [|split; [|split]]]].
  - split; [|apply Hhigh]. intros E.
    destruct (Z_gt_le_dec n (size rb)) as [|Hle]; [assumption|].
    destruct (Hlow n ltac:(lia)) as (samples & E'). congruence.
  - intros Hle. apply Hlow. lia.
  - intros e E. destruct (Z_gt_le_dec n (size rb)) as [Hgt|Hle].
    + rewrite (Hhigh n Hgt) in E. congruence.
    + destruct (Hlow n ltac:(lia)) as (samples & E'). congruence.
  - apply read_latest_state.
  - intros Hs. split; [apply Hhigh; lia|apply Hlow; lia].
  - intros history data HR.
    destruct (write_view rb data (reachable_Inv zero _ _ HR)) as (rb' & E & _).
    now rewrite E.
Qed.

(** C10. On a fresh buffer of size [capacity], [read_latest(n)] with
    [1 <= n <= capacity] returns [n] zeros; and a read of [m] samples,
    [1 <= m <= size], from any reachable buffer returns, and what it
    returns has exactly [m] samples. *)
Theorem read_latest_fresh capacity n rb0 :
  1 <= n <= capacity ->
  RingBuffer_init zero capacity = Returns rb0 ->
  read_latest n rb0 = (Returns (repeat zero (Z.to_nat n)), rb0) /\
  (forall rb history m,
     reachable zero rb history -> 1 <= m <= size rb ->
     exists samples,
       fst (read_latest m rb) = Returns samples /\ len samples = m).
Proof.
  intros Hn Hinit. split.
  - assert (HR0 : reachable zero rb0 []) by (eapply reachable_init; eauto; lia).
    assert (size rb0 = capacity) as Hs0.
    { rewrite RingBuffer_init_returns in Hinit by lia. now injection Hinit as <-. }
    rewrite (read_latest_history _ _ _ HR0) by lia.
    rewrite app_nil_r, lastn_repeat by lia. reflexivity.
  - intros rb history m HR Hm.
    rewrite (read_latest_history _ _ _ HR) by lia.
    eexists. split; [reflexivity|].
    unfold len. rewrite length_lastn; [lia|].
    rewrite length_app, repeat_length. lia.
Qed.
End ReadClaims.

(** ** The ring buffer on concrete runs *)

Lemma reachable_1_2_3 : reachable 0 (mkRingBuffer 4 [1; 2; 3; 0] 3) [1; 2; 3].
Proof.
  apply (reachable_write 0 (mkRingBuffer 4 [0; 0; 0; 0] 0) [] [1; 2; 3]
           (Returns tt)); [|reflexivity].
  apply (reachable_init 0 4); [lia|reflexivity].
Defined.

Lemma write_short_chunk_witness :
  reachable 0 (mkRingBuffer 4 [1; 2; 3; 0] 3) [1; 2; 3] /\
  len [4; 5] < 4 /\
  exists rb',
    write [4; 5] (mkRingBuffer 4 [1; 2; 3; 0] 3) = (Returns tt, rb') /\
    write_ptr rb' = 1 /\
    nth_error (buffer rb') 3 = Some 4 /\ nth_error (buffer rb') 0 = Some 5.
Proof.
  split; [exact reachable_1_2_3|]. split; [cbn; lia|].
  destruct (write_short_chunk 0 _ _ [4; 5] reachable_1_2_3 ltac:(cbn; lia))
    as (rb' & E & _ & Hp & Hcopy & _).
  exists rb'. split; [exact E|]. split; [exact Hp|].
  split; [exact (Hcopy 0%nat ltac:(cbn; lia))|exact (Hcopy 1%nat ltac:(cbn; lia))].
Defined.

Lemma write_long_chunk_witness :
  reachable 0 (mkRingBuffer 4 [1; 2; 3; 0] 3) [1; 2; 3] /\
  len [4; 5; 6; 7; 8] >= 4 /\
  exists rb',
    write [4; 5; 6; 7; 8] (mkRingBuffer 4 [1; 2; 3; 0] 3) = (Returns tt, rb') /\
    buffer rb' = [5; 6; 7; 8] /\ write_ptr rb' = 0.
Proof.
  split; [exact reachable_1_2_3|]. split; [cbn; lia|].
  destruct (write_long_chunk 0 _ _ [4; 5; 6; 7; 8] reachable_1_2_3
              ltac:(cbn; lia))
    as (rb' & E & _ & Hb & Hp & _).
  exists rb'. split; [exact E|]. split; [exact Hb|exact Hp].
Defined.

Lemma capacity_invariant_witness :
  0 < 4 /\
  exists rb',
    writes [[1; 2; 3]; []; [4; 5]; [1; 2; 3; 4]; [1; 2; 3; 4; 5; 6]; [7]]
      (mkRingBuffer 4 [0; 0; 0; 0] 0) = (Returns tt, rb') /\
    len (buffer rb') = 4 /\ 0 <= write_ptr rb' < 4.
Proof.
  split; [lia|].
  destruct (capacity_invariant 0 4
              [[1; 2; 3]; []; [4; 5]; [1; 2; 3; 4]; [1; 2; 3; 4; 5; 6]; [7]]
              ltac:(lia))
    as (rb0 & Hinit & _ & _ & (rb' & E & _ & Hl & Hp) & _).
  injection Hinit as <-.
  exists rb'. split; [exact E|]. split; [exact Hl|exact Hp].
Defined.

Lemma read_latest_chronological_witness :
  reachable 0 (mkRingBuffer 4 [1; 2; 3; 0] 3) [1; 2; 3] /\
  1 <= 2 <= 4 /\
  read_latest 2 (mkRingBuffer 4 [1; 2; 3; 0] 3)
  = (Returns [2; 3], mkRingBuffer 4 [1; 2; 3; 0] 3).
Proof.
  split; [exact reachable_1_2_3|]. split; [lia|].
  exact (proj1 (read_latest_chronological 0 _ _ 2 reachable_1_2_3
                  ltac:(cbn; lia))).
Defined.

Lemma read_latest_out_of_range_witness :
  0 < 5 /\
  fst (read_latest 5 (mkRingBuffer 4 [1; 2; 3; 0] 3)) = Raises out_of_range /\
  snd (read_latest 5 (mkRingBuffer 4 [1; 2; 3; 0] 3))
  = mkRingBuffer 4 [1; 2; 3; 0] 3.
Proof.
  split; [lia|].
  destruct (read_latest_out_of_range 0 (mkRingBuffer 4 [1; 2; 3; 0] 3) 5
              ltac:(lia))
    as (Hiff & _ & _ & Hstate & _).
  split; [apply Hiff; cbn; lia|exact Hstate].
Defined.

Lemma read_latest_fresh_witness :
  1 <= 3 <= 4 /\
  RingBuffer_init 0 4 = Returns (mkRingBuffer 4 [0; 0; 0; 0] 0) /\
  read_latest 3 (mkRingBuffer 4 [0; 0; 0; 0] 0)
  = (Returns [0; 0; 0], mkRingBuffer 4 [0; 0; 0; 0] 0).
Proof.
  split; [lia|]. split; [reflexivity|].
  exact (proj1 (read_latest_fresh 0 4 3 _ ltac:(lia) eq_refl)).
Defined.

(** ** The signal generator in exact arithmetic *)

Section GeneratorFacts.
Variable func : list Qc -> outcome (list Qc).
Implicit Types (w : World Qc) (d sr interval : Qc).

Lemma Qc_of_nat_S n : Qc_of_nat (S n) = (Qc_of_nat n + 1)%Qc.
Proof.
  apply Qc_is_canon. unfold Qc_of_nat, Qcplus, Q2Qc. cbn [this].
  rewrite !Qred_correct, Nat2Z.inj_succ. unfold Z.succ.
  now rewrite inject_Z_plus.
Qed.

Lemma Qc_of_nat_0 : Qc_of_nat 0 = 0%Qc.
Proof. apply Qc_is_canon. reflexivity. Qed.

Lemma fis_zero_false (x : Qc) : x <> 0%Qc -> fis_zero x = false.
Proof.
  intros Hx. cbn. unfold Qc_eq_bool.
  destruct (Qc_eq_dec x (Q2Qc 0)); [contradiction|reflexivity].
Qed.

Lemma Qcinv_nonzero (x : Qc) : x <> 0%Qc -> (1 / x)%Qc <> 0%Qc.
Proof.
  intros Hx E. apply Q_apart_0_1.
  rewrite <- (Qcmult_div_r 1 x Hx), E. ring.
Qed.

(** The array passed to [self.func]: one instant every [1 / sample_rate],
    from the time offset on, [ceil(duration * sample_rate)] of them. *)
Lemma time_vector_run w d :
  sample_rate (gen w) <> 0%Qc ->
  time_vector d w
  = (Returns (time_grid (time_offset (gen w)) (1 / sample_rate (gen w))%Qc
                (window_count d (sample_rate (gen w)))), w).
Proof.
  intros Hsr. unfold time_vector, bind, get, lift, ret, py_truediv, np_arange.
  rewrite !fis_zero_false by (try apply Qcinv_nonzero; assumption).
  cbn [fdiv fsub fceil flit fadd fmul Qc_Arith].
  unfold time_grid, window_count. rewrite map_map.
  replace ((d - Q2Qc 0) / (Q2Qc 1 / sample_rate (gen w)))%Qc
    with (d * sample_rate (gen w))%Qc
    by (field; split; [assumption|apply Q_apart_0_1]).
  do 2 f_equal. apply map_ext. intros j. unfold Qc_of_nat. ring.
Qed.

Lemma time_sleep_returns interval :
  (0 <= interval)%Qc -> time_sleep interval = Returns tt.
Proof.
  intros Hi. unfold time_sleep. cbn [fle flit Qc_Arith].
  now rewrite (proj2 (Qle_bool_iff _ _) Hi).
Qed.

Lemma generate_samples_run w d :
  sample_rate (gen w) <> 0%Qc -> total func ->
  exists samples,
    _generate_samples func d w
    = (Returns samples,
       mkWorld (rb w)
         (mkSignalGenerator (sample_rate (gen w)) (running (gen w))
            (time_offset (gen w) + d)%Qc (thread (gen w)))).
Proof.
  intros Hsr Htot. unfold _generate_samples, bind.
  rewrite time_vector_run by assumption.
  destruct (Htot (time_grid (time_offset (gen w)) (1 / sample_rate (gen w))%Qc
                    (window_count d (sample_rate (gen w))))) as (samples & E).
  exists samples. unfold lift. rewrite E. reflexivity.
Qed.

Lemma run_body_run w d interval :
  Inv (rb w) -> sample_rate (gen w) <> 0%Qc -> (0 <= interval)%Qc ->
  total func ->
  exists w',
    run_body func d interval w = (Returns tt, w') /\
    Inv (rb w') /\
    gen w' = mkSignalGenerator (sample_rate (gen w)) (running (gen w))
               (time_offset (gen w) + d)%Qc (thread (gen w)).
Proof.
  intros HI Hsr Hi Htot. unfold run_body, bind.
  destruct (generate_samples_run w d Hsr Htot) as (samples & ->).
  unfold on_buffer. cbn [rb gen].
  destruct (write_view (rb w) samples HI) as (b & -> & HI' & _).
  unfold lift. rewrite time_sleep_returns by assumption.
  eexists. split; [reflexivity|]. cbn [rb gen]. auto.
Qed.

Lemma run_bodies_run n d interval : forall w,
  Inv (rb w) -> sample_rate (gen w) <> 0%Qc -> (0 <= interval)%Qc ->
  total func ->
  exists w',
    run_bodies func n d interval w = (Returns tt, w') /\
    Inv (rb w') /\
    sample_rate (gen w') = sample_rate (gen w) /\
    time_offset (gen w') = (time_offset (gen w) + Qc_of_nat n * d)%Qc.
Proof.
  induction n as [|n IH]; intros w HI Hsr Hi Htot.
  - exists w. cbn [run_bodies]. rewrite Qc_of_nat_0.
    split; [reflexivity|]. split; [exact HI|]. split; [reflexivity|]. ring.
  - destruct (run_body_run w d interval HI Hsr Hi Htot) as (w1 & E1 & HI1 & G1).
    destruct (IH w1 HI1) as (w2 & E2 & HI2 & Hsr2 & Ht2);
      try assumption; [rewrite G1; exact Hsr|].
    exists w2. cbn [run_bodies]. unfold bind. rewrite E1.
    split; [exact E2|]. split; [exact HI2|].
    rewrite Hsr2, Ht2, G1. cbn [sample_rate time_offset].
    split; [reflexivity|]. rewrite Qc_of_nat_S. ring.
Qed.

(** The instants of one window lie in the window: from its origin on and
    before the origin of the next one. *)
Lemma time_grid_inside origin d sr :
  (0 < sr)%Qc ->
  Forall (fun x => (origin <= x)%Qc /\ (x < origin + d)%Qc)
    (time_grid origin (1 / sr)%Qc (window_count d sr)).
Proof.
  intros Hsr. unfold time_grid. apply Forall_forall. intros x Hx.
  apply in_map_iff in Hx. destruct Hx as (j & <- & Hj).
  apply in_seq in Hj. unfold window_count in Hj.
  assert (Hpos : (0 < / sr)%Qc).
  { unfold Qclt, Qcinv, Q2Qc. cbn [this]. rewrite !Qred_correct.
    apply Qinv_lt_0_compat. exact Hsr. }
  assert (Hnz : sr <> 0%Qc).
  { intros E. rewrite E in Hsr. revert Hsr. apply Qlt_irrefl. }
  assert (H0 : (0 <= Qc_of_nat j)%Qc).
  { unfold Qcle, Qc_of_nat, Q2Qc. cbn [this]. rewrite !Qred_correct.
    change 0%Q with (inject_Z 0). rewrite <- Zle_Qle. lia. }
  assert (H1 : (Qc_of_nat j < d * sr)%Qc).
  { unfold Qclt, Qc_of_nat, Q2Qc. cbn [this]. rewrite !Qred_correct.
    apply Qle_lt_trans with (inject_Z (Qceiling (d * sr)%Qc - 1)).
    - rewrite <- Zle_Qle. lia.
    - apply Qceiling_lt. }
  split.
  - rewrite <- (Qcplus_0_r origin) at 1.
    apply Qcplus_le_compat; [apply Qcle_refl|].
    replace 0%Qc with (0 * (1 / sr))%Qc by ring.
    apply Qcmult_le_compat_r; [exact H0|].
    replace (1 / sr)%Qc with (/ sr)%Qc by (field; exact Hnz).
    apply Qclt_le_weak. exact Hpos.
  - apply Qclt_minus_iff.
    replace (origin + d + - (origin + Qc_of_nat j * (1 / sr)))%Qc
      with ((d * sr + - Qc_of_nat j) * / sr)%Qc by (field; exact Hnz).
    replace 0%Qc with (0 * / sr)%Qc by ring.
    apply Qcmult_lt_compat_r; [exact Hpos|].
    apply Qclt_minus_iff in H1. exact H1.
Qed.

(** A window of positive duration has a first instant, its origin. *)
Lemma time_grid_first origin d sr :
  (0 < sr)%Qc -> (0 < d)%Qc ->
  nth_error (time_grid origin (1 / sr)%Qc (window_count d sr)) 0 = Some origin.
Proof.
  intros Hsr Hd. unfold window_count.
  assert (Hpos : (0 < Qceiling (d * sr)%Qc)%Z).
  { apply Z.lt_le_trans with 1%Z; [lia|].
    assert (Hx : (0 < d * sr)%Qc).
    { replace 0%Qc with (0 * sr)%Qc by ring.
      apply Qcmult_lt_compat_r; assumption. }
    pose proof (Qle_ceiling (d * sr)%Qc) as Hc.
    pose proof (Qlt_le_trans _ _ _ Hx Hc) as Hlt.
    change (Q2Qc 0 : Q) with (inject_Z 0) in Hlt.
    rewrite <- Zlt_Qlt in Hlt. lia. }
  destruct (Z.to_nat (Qceiling (d * sr)%Qc)) as [|n] eqn:En; [lia|].
  unfold time_grid. cbn [seq map nth_error]. f_equal.
  rewrite Qc_of_nat_0. ring.
Qed.
End GeneratorFacts.

(** In exact arithmetic, which is not the arithmetic of the code: from a
    generator with time offset 0, [N] passes of duration [d] all return;
    the time offset is then [N * d]; and the time vector of the next pass
    is made of the instants [N * d + j * (1 / sample_rate)] for [j] from 0
    up to [ceil(d * sample_rate) - 1], which all lie from [N * d] on and
    before [(N + 1) * d]. *)
Lemma time_continuity_exact func buffer sr d interval (N : nat) :
  Inv buffer -> (0 < sr)%Qc -> (0 <= interval)%Qc -> total func ->
  exists w,
    run_bodies func N d interval (SignalGenerator_init buffer sr)
    = (Returns tt, w) /\
    time_offset (gen w) = (Qc_of_nat N * d)%Qc /\
    fst (time_vector d w)
    = Returns (time_grid (Qc_of_nat N * d)%Qc (1 / sr)%Qc (window_count d sr)) /\
    Forall (fun x => (Qc_of_nat N * d <= x)%Qc /\ (x < Qc_of_nat (S N) * d)%Qc)
      (time_grid (Qc_of_nat N * d)%Qc (1 / sr)%Qc (window_count d sr)) /\
    ((0 < d)%Qc ->
     nth_error (time_grid (Qc_of_nat N * d)%Qc (1 / sr)%Qc (window_count d sr)) 0
     = Some (Qc_of_nat N * d)%Qc).
Proof.
  intros HI Hsr Hi Htot.
  assert (Hnz : sr <> 0%Qc).
  { intros E. rewrite E in Hsr. revert Hsr. apply Qlt_irrefl. }
  destruct (run_bodies_run func N d interval (SignalGenerator_init buffer sr))
    as (w & E & _ & Hs & Ht); try assumption.
  cbn [SignalGenerator_init gen sample_rate time_offset flit Qc_Arith] in Hs, Ht.
  assert (Ht' : time_offset (gen w) = (Qc_of_nat N * d)%Qc) by (rewrite Ht; ring).
  exists w. split; [exact E|]. split; [exact Ht'|]. split; [|split].
  - rewrite time_vector_run by (rewrite Hs; exact Hnz).
    cbn [fst]. now rewrite Hs, Ht'.
  - replace (Qc_of_nat (S N) * d)%Qc with (Qc_of_nat N * d + d)%Qc
      by (rewrite Qc_of_nat_S; ring).
    apply time_grid_inside. exact Hsr.
  - intros Hd. apply time_grid_first; assumption.
Qed.

(** ** The waveform callables *)

Section WaveformFacts.
Context {F : Type} `{Arith F}.
Import SignalFunctions.

(** [MySin] answers instant by instant. *)
Lemma MySin_call_length `{Trig F} (self : MySin.t F) (t : list F) :
  length (MySin.call self t) = length t.
Proof. apply length_map. Qed.

Lemma MySin_call_nth `{Trig F} (self : MySin.t F) (t : list F) i :
  nth_error (MySin.call self t) i
  = option_map (MySin.sample self) (nth_error t i).
Proof. apply nth_error_map. Qed.

(** [DeltaUpDown] answers for the first half of the instants only. *)
Lemma DeltaUpDown_call_returns (self : DeltaUpDown.t F) (t : list F) :
  fis_zero (DeltaUpDown.frequency self) = false ->
  exists data,
    DeltaUpDown.call self t = Returns data /\
    length data = (length t / 2)%nat.
Proof.
  intros Hf. unfold DeltaUpDown.call, py_truediv. rewrite Hf.
  eexists. split; [reflexivity|].
  rewrite length_map. unfold len. rewrite length_map.
  change 2 with (Z.of_nat 2). rewrite <- Nat2Z.inj_div.
  assert (Hhalf : (length t / 2 <= length t)%nat)
    by (apply Nat.Div0.div_le_upper_bound; lia).
  rewrite py_slice_to by (rewrite length_map; exact Hhalf).
  rewrite length_firstn, length_map. lia.
Qed.

Lemma DeltaUpDown_call_raises (self : DeltaUpDown.t F) (t : list F) :
  fis_zero (DeltaUpDown.frequency self) = true ->
  DeltaUpDown.call self t = Raises ZeroDivisionError.
Proof.
  intros Hf. unfold DeltaUpDown.call, py_truediv. now rewrite Hf.
Qed.
End WaveformFacts.

(** C4.  [MySin.__call__] returns as many samples as it is given
    instants, sample [i] computed from instant [i].  [DeltaUpDown.__call__]
    does not: when it returns, it returns
    half as many, rounded down, and it raises when the frequency is zero.
    For the generator of [main.py] and the two instants 0 and 1/2 it
    returns one sample. *)
Theorem waveform_lengths :
  (forall (F : Type) (A : Arith F) (T : Trig F)
          (self : SignalFunctions.MySin.t F) (t : list F),
     length (SignalFunctions.MySin.call self t) = length t /\
     forall i,
       nth_error (SignalFunctions.MySin.call self t) i
       = option_map (SignalFunctions.MySin.sample self) (nth_error t i)) /\
  (forall (F : Type) (A : Arith F)
          (self : SignalFunctions.DeltaUpDown.t F) (t : list F),
     match SignalFunctions.DeltaUpDown.call self t with
     | Returns data => length data = (length t / 2)%nat
     | Raises e => e = ZeroDivisionError
     end) /\
  (exists x,
     SignalFunctions.DeltaUpDown.call
       (SignalFunctions.DeltaUpDown.init
          (Q2Qc 2) (Q2Qc (1 # 5)) (Q2Qc 0) (Q2Qc (1 # 5)))
       [Q2Qc 0; Q2Qc (1 # 2)]
     = Returns [x]).
Proof.
  split; [|split].
  - intros. split; [apply MySin_call_length|apply MySin_call_nth].
  - intros F A self t.
    destruct (fis_zero (SignalFunctions.DeltaUpDown.frequency self)) eqn:Hf.
    + now rewrite DeltaUpDown_call_raises.
    + destruct (DeltaUpDown_call_returns self t Hf) as (data & -> & Hlen).
      exact Hlen.
  - eexists. reflexivity.
Qed.

(** ** Stopping the generator *)

Section StopFacts.
Context {F : Type} `{Arith F}.
Variable func : list F -> outcome (list F).
Implicit Types (w : World F).

Lemma on_buffer_gen {X : Type} (m : M (RingBuffer F) X) w :
  gen (snd (on_buffer m w)) = gen w.
Proof. unfold on_buffer. now destruct (m (rb w)). Qed.

(** With [running] false, every step brings the thread closer to its
    exit, and no step sets [running]. *)
Lemma thread_step_closer w :
  running (gen w) = false -> is_alive w = true ->
  running (gen (thread_step func w)) = false /\
  (steps_to_exit (thread_step func w) < steps_to_exit w)%nat.
Proof.
  intros Hrun Halive. unfold is_alive in Halive.
  unfold thread_step, steps_to_exit.
  destruct (thread (gen w)) as [[[|samples|] d i|]|] eqn:Ht; try discriminate.
  - rewrite Hrun. cbn. split; [assumption|lia].
  - pose proof (on_buffer_gen (write samples) w) as G.
    destruct (on_buffer (write samples) w) as [[u|e] w']; cbn in G |- *;
      rewrite G, Hrun; split; (reflexivity || lia).
  - destruct (time_sleep i); cbn; rewrite Hrun; split; (reflexivity || lia).
Qed.

Lemma steps_to_exit_alive w :
  is_alive w = false <-> steps_to_exit w = 0%nat.
Proof.
  unfold is_alive, steps_to_exit.
  destruct (thread (gen w)) as [[[|samples|] d i|]|]; split; intros E;
    (reflexivity || discriminate).
Qed.

Lemma join_inactive fuel w : is_alive w = false -> join func fuel w = Some w.
Proof.
  unfold is_alive. destruct fuel; cbn;
    destruct (thread (gen w)) as [[p d i|]|]; intros E;
    (reflexivity || discriminate).
Qed.

(** With [running] false, [join] returns once the fuel covers the steps
    to the exit of the thread. *)
Lemma join_returns fuel : forall w,
  running (gen w) = false -> (steps_to_exit w <= fuel)%nat ->
  exists w',
    join func fuel w = Some w' /\
    running (gen w') = false /\ is_alive w' = false.
Proof.
  induction fuel as [|fuel IH]; intros w Hrun Hfuel.
  - assert (Hin : is_alive w = false) by (apply steps_to_exit_alive; lia).
    exists w. rewrite join_inactive by assumption. auto.
  - destruct (is_alive w) eqn:Halive.
    + destruct (thread_step_closer w Hrun Halive) as (Hrun' & Hless).
      destruct (IH (thread_step func w) Hrun' ltac:(lia)) as (w' & E & R & I).
      exists w'. split; [|auto].
      unfold is_alive in Halive. cbn [join].
      destruct (thread (gen w)) as [[p d i|]|]; try discriminate. exact E.
    + exists w. rewrite join_inactive by assumption. auto.
Qed.

Lemma steps_to_exit_bound w : (steps_to_exit w <= 3)%nat.
Proof.
  unfold steps_to_exit.
  destruct (thread (gen w)) as [[[|samples|] d i|]|]; lia.
Qed.

(** Clearing a flag that is clear gives the same world. *)
Lemma set_running_same w :
  running (gen w) = false -> snd (set_running false w) = w.
Proof.
  destruct w as [b [sr r t th]]. cbn. now intros ->.
Qed.

Lemma stop_inactive fuel w :
  is_alive w = false ->
  stop func fuel w = Some (Returns tt, snd (set_running false w)).
Proof.
  intros Hin. unfold stop.
  assert (Hin' : is_alive (snd (set_running false w)) = false) by exact Hin.
  rewrite join_inactive by exact Hin'.
  now destruct (thread (gen (snd (set_running false w)))).
Qed.
End StopFacts.

(** Without [stop()] the wait would not end: while [running] stays true
    the thread of a well-formed generator never exits, so [join] finds it
    alive whatever the fuel. *)
Section NeverExits.
Variable func : list Qc -> outcome (list Qc).
Hypothesis func_total : total func.

Lemma thread_step_keeps_going w :
  keeps_going w -> keeps_going (thread_step func w).
Proof.
  intros (HI & Hsr & Hrun & p & d & i & Hth & Hi).
  unfold thread_step. rewrite Hth. destruct p as [|samples|].
  - rewrite Hrun.
    destruct (generate_samples_run func w d Hsr func_total) as (samples & ->).
    unfold keeps_going. cbn. rewrite Hrun. eauto 10.
  - unfold on_buffer.
    destruct (write_view (rb w) samples HI) as (b & -> & HI' & _).
    unfold keeps_going. cbn. rewrite Hrun. eauto 10.
  - rewrite time_sleep_returns by assumption.
    unfold keeps_going. cbn. rewrite Hrun. eauto 10.
Qed.

Lemma join_waits fuel : forall w, keeps_going w -> join func fuel w = None.
Proof.
  induction fuel as [|fuel IH]; intros w Hw.
  - destruct Hw as (_ & _ & _ & p & d & i & Hth & _). cbn. now rewrite Hth.
  - pose proof (thread_step_keeps_going w Hw) as Hw'.
    destruct Hw as (_ & _ & _ & p & d & i & Hth & _). cbn [join].
    rewrite Hth. apply IH. exact Hw'.
Qed.
End NeverExits.

(** C8.  [stop()] returns without an exception as soon as the thread has
    been given three steps, in whatever state the generator is; the
    generator is then not running and its thread, if any, has exited; a
    second [stop()] then returns at once and changes nothing.  When no
    thread is alive, [stop()] returns at once, having only cleared
    [running]; on a generator that was never started it changes nothing
    at all. *)
Theorem stop_idempotent {F : Type} `{Arith F}
    (func : list F -> outcome (list F)) (w : World F) (fuel : nat) :
  (3 <= fuel)%nat ->
  exists w1,
    stop func fuel w = Some (Returns tt, w1) /\
    running (gen w1) = false /\ is_alive w1 = false /\
    (forall fuel', stop func fuel' w1 = Some (Returns tt, w1)) /\
    (is_alive w = false ->
     forall fuel', stop func fuel' w = Some (Returns tt, snd (set_running false w))) /\
    (forall buffer sr fuel',
       stop func fuel' (SignalGenerator_init buffer sr)
       = Some (Returns tt, SignalGenerator_init buffer sr)).
Proof.
  intros Hfuel.
  assert (Hagain : forall w1, running (gen w1) = false -> is_alive w1 = false ->
                   forall fuel', stop func fuel' w1 = Some (Returns tt, w1)).
  { intros w1 R I fuel'. rewrite stop_inactive by exact I.
    now rewrite set_running_same. }
  pose (w0 := snd (set_running false w)).
  destruct (join_returns func fuel w0 eq_refl) as (w1 & E & R & I).
  { pose proof (steps_to_exit_bound w0). lia. }
  destruct (thread (gen w0)) as [th|] eqn:Hth.
  - exists w1. split.
    + unfold stop. fold w0. now rewrite Hth, E.
    + split; [exact R|]. split; [exact I|]. split; [apply Hagain; assumption|].
      split; [intros Hin fuel'; now apply stop_inactive|].
      intros buffer sr fuel'. reflexivity.
  - exists w0. split.
    + unfold stop. fold w0. now rewrite Hth.
    + assert (I0 : is_alive w0 = false) by (unfold is_alive; now rewrite Hth).
      split; [reflexivity|]. split; [exact I0|].
      split; [apply Hagain; [reflexivity|exact I0]|].
      split; [intros Hin fuel'; now apply stop_inactive|].
      intros buffer sr fuel'. reflexivity.
Qed.

(** ** The generator of [main.py] on concrete runs: the [DeltaUpDown]
       callable with amplitude 2, frequency 1/5, offset 0 and edge time
       1/5, a buffer of four slots, two samples per second and windows of
       3/4 of a second *)

Lemma stop_idempotent_witness :
  (3 <= 3)%nat /\
  exists w1,
    stop
      (SignalFunctions.DeltaUpDown.call
         (SignalFunctions.DeltaUpDown.init
            (Q2Qc 2) (Q2Qc (1 # 5)) (Q2Qc 0) (Q2Qc (1 # 5))))
      3
      (snd (start (Q2Qc (3 # 4)) (Q2Qc (1 # 100))
              (SignalGenerator_init
                 (mkRingBuffer 4 (repeat (Q2Qc 0) 4) 0) (Q2Qc 2))))
    = Some (Returns tt, w1) /\
    running (gen w1) = false /\
    stop
      (SignalFunctions.DeltaUpDown.call
         (SignalFunctions.DeltaUpDown.init
            (Q2Qc 2) (Q2Qc (1 # 5)) (Q2Qc 0) (Q2Qc (1 # 5))))
      0 w1
    = Some (Returns tt, w1).
Proof.
  split; [lia|].
  destruct (stop_idempotent
              (SignalFunctions.DeltaUpDown.call
                 (SignalFunctions.DeltaUpDown.init
                    (Q2Qc 2) (Q2Qc (1 # 5)) (Q2Qc 0) (Q2Qc (1 # 5))))
              (snd (start (Q2Qc (3 # 4)) (Q2Qc (1 # 100))
                      (SignalGenerator_init
                         (mkRingBuffer 4 (repeat (Q2Qc 0) 4) 0) (Q2Qc 2))))
              3 ltac:(lia))
    as (w1 & E & R & _ & Hagain & _).
  exists w1. split; [exact E|]. split; [exact R|apply Hagain].
Defined.

(** ** Further properties of the ring buffer *)

Section RingBufferExtras.
Context {A : Type}.
Variable zero : A.
Implicit Types (rb : RingBuffer A) (data history : list A).

(** X1. Writing an empty chunk into a reachable buffer returns and leaves
    storage and write pointer exactly as they were. *)
Theorem write_empty_chunk rb history :
  reachable zero rb history -> write [] rb = (Returns tt, rb).
Proof.
  intros HR. pose proof (reachable_Inv zero _ _ HR) as HI.
  destruct (Inv_shape rb HI) as (w & Hw & Erb).
  destruct rb as [sz buf wp]. cbn [size buffer write_ptr] in *.
  injection Erb as -> ->.
  rewrite write_nowrap by (cbn [length]; lia).
  cbn [length app]. rewrite Nat.add_0_r, firstn_skipn. reflexivity.
Qed.

(** X2. The storage of a reachable buffer, read around the ring from the
    write pointer, is the newest [size] elements of the initial zeros
    followed by everything written: slot [(write_ptr + i) mod size] holds
    element [i] of that sequence, the oldest at the write pointer. *)
Theorem storage_layout rb history (i : nat) :
  reachable zero rb history -> Z.of_nat i < size rb ->
  nth_error (buffer rb) (Z.to_nat ((write_ptr rb + Z.of_nat i) mod size rb))
  = nth_error
      (lastn (Z.to_nat (size rb)) (repeat zero (Z.to_nat (size rb)) ++ history))
      i.
Proof.
  intros HR Hi. pose proof (reachable_Inv zero _ _ HR) as HI.
  rewrite <- (reachable_view zero _ _ HR).
  destruct (Inv_shape rb HI) as (w & Hw & Erb).
  destruct rb as [sz buf wp]. cbn [size buffer write_ptr] in *.
  injection Erb as -> ->. unfold view. cbn [buffer write_ptr].
  rewrite Nat2Z.id, ring_index by lia.
  rewrite nth_error_app, length_skipn, nth_error_skipn, nth_error_firstn.
  destruct (Nat.ltb_spec (w + i) (length buf));
    destruct (Nat.ltb_spec i (length buf - w)); try lia; [reflexivity|].
  destruct (Nat.ltb_spec (i - (length buf - w)) w); [|lia].
  f_equal. lia.
Qed.

(** X3. A reader cannot tell whether two chunks were written in two calls
    or as one chunk in one call: the storage may be laid out differently,
    but the chronological view is the same, and so is what
    [read_latest(n)] returns or raises for every [n >= 0]. *)
Theorem split_write_same_reads rb history a b n :
  reachable zero rb history -> 0 <= n ->
  view (snd ((write a ;; write b) rb)) = view (snd (write (a ++ b) rb)) /\
  fst ((write a ;; write b ;; read_latest n) rb)
  = fst ((write (a ++ b) ;; read_latest n) rb).
Proof.
  intros HR Hn. pose proof (reachable_Inv zero _ _ HR) as HI.
  destruct (write_view rb a HI) as (r1 & E1 & HI1 & Hs1 & _).
  destruct (write_view r1 b HI1) as (r2 & E2 & HI2 & Hs2 & _).
  destruct (write_view rb (a ++ b) HI) as (r3 & E3 & HI3 & Hs3 & _).
  assert (HR2 : reachable zero r2 (history ++ a ++ b)).
  { rewrite app_assoc. eapply reachable_write; [|exact E2].
    eapply reachable_write; [exact HR|exact E1]. }
  assert (HR3 : reachable zero r3 (history ++ a ++ b))
    by (eapply reachable_write; [exact HR|exact E3]).
  unfold bind. rewrite E1, E2, E3. cbn [snd]. split.
  - rewrite (reachable_view zero _ _ HR2), (reachable_view zero _ _ HR3).
    congruence.
  - destruct (Z_le_gt_dec n (size rb)) as [Hle|Hgt].
    + rewrite (read_latest_history zero _ _ _ HR2) by lia.
      rewrite (read_latest_history zero _ _ _ HR3) by lia.
      cbn [fst]. congruence.
    + unfold read_latest, bind, get, raise. rewrite !Z.gtb_ltb.
      destruct (Z.ltb_spec (size r2) n); [|lia].
      destruct (Z.ltb_spec (size r3) n); [|lia]. reflexivity.
Qed.

(** X4. Reads of a reachable buffer nest: what [read_latest(m)] returns
    is the newest [m] samples of what [read_latest(n)] returns, for
    [0 <= m <= n <= size]. *)
Theorem read_latest_nested rb history m n :
  reachable zero rb history -> 0 <= m <= n -> n <= size rb ->
  exists more fewer,
    fst (read_latest n rb) = Returns more /\
    fst (read_latest m rb) = Returns fewer /\
    len more = n /\
    fewer = lastn (Z.to_nat m) more.
Proof.
  intros HR Hm Hn. pose proof (reachable_Inv zero _ _ HR) as (Hs & Hl & Hp).
  rewrite !(read_latest_history zero _ _ _ HR) by lia.
  do 2 eexists. split; [reflexivity|]. split; [reflexivity|]. split.
  - unfold len. rewrite length_lastn; [lia|].
    rewrite length_app, repeat_length. lia.
  - now rewrite lastn_lastn by lia.
Qed.

(** X5. [read_latest] does not reject counts that are not positive: on a
    reachable buffer it returns for zero and for every negative count,
    never raising and never changing the buffer, and [read_latest(0)]
    returns the empty array. *)
Theorem read_latest_nonpositive rb history n :
  reachable zero rb history -> n <= 0 ->
  (exists samples, read_latest n rb = (Returns samples, rb)) /\
  read_latest 0 rb = (Returns [], rb).
Proof.
  intros HR Hn. pose proof (reachable_Inv zero _ _ HR) as (Hs & Hl & Hp).
  split.
  - pose proof (read_latest_state rb n) as Hst.
    unfold read_latest, bind, get, raise, lift, ret, py_mod in *.
    rewrite Z.gtb_ltb in *.
    destruct (Z.ltb_spec (size rb) n); [lia|].
    destruct (Z.eqb_spec (size rb) 0); [lia|].
    destruct (_ <=? _); eexists; reflexivity.
  - rewrite (read_latest_history zero _ _ _ HR) by lia.
    cbn [Z.to_nat]. unfold lastn. rewrite Nat.sub_0_r, skipn_all. reflexivity.
Qed.

(** X6. The constructor does not insist on a positive size.  A negative
    size raises [ValueError].  Size 0 is accepted, and on that buffer
    [read_latest(0)] raises [ZeroDivisionError], and a write of two or
    more samples raises [ValueError] and leaves the buffer as it was. *)
Theorem zero_size_buffer (data : list A) (negative : Z) :
  (2 <= length data)%nat -> negative < 0 ->
  (exists msg, RingBuffer_init zero negative = Raises (ValueError msg)) /\
  RingBuffer_init zero 0 = Returns (mkRingBuffer 0 [] 0) /\
  read_latest 0 (mkRingBuffer 0 ([] : list A) 0)
  = (Raises ZeroDivisionError, mkRingBuffer 0 [] 0) /\
  exists msg,
    write data (mkRingBuffer 0 [] 0) = (Raises (ValueError msg), mkRingBuffer 0 [] 0).
Proof.
  intros Hd Hneg. split; [|split; [|split]].
  - unfold RingBuffer_init, np_zeros.
    destruct (Z.ltb_spec negative 0); [|lia]. eexists. reflexivity.
  - reflexivity.
  - reflexivity.
  - unfold write, bind, get. cbn [size buffer write_ptr].
    rewrite Z.geb_leb. unfold len.
    destruct (Z.leb_spec 0 (Z.of_nat (length data))); [|lia].
    unfold buffer_setitem, bind, get, lift. cbn [buffer Z.opp].
    assert (Hall : py_slice data (Some 0) None = data).
    { change 0 with (Z.of_nat 0). rewrite py_slice_from by lia. reflexivity. }
    rewrite Hall. unfold np_setitem. cbn.
    destruct data as [|x [|y data']]; cbn in Hd; try lia.
    eexists. reflexivity.
Qed.
End RingBufferExtras.

(** ** The plotter *)

Section PlotterExtras.
Context {F : Type} `{Arith F}.
Variable zero : F.

Lemma np_arange_int_inside (n x : Z) :
  In x (np_arange_int n) -> 0 <= x < n.
Proof.
  unfold np_arange_int. intros Hx. apply in_map_iff in Hx.
  destruct Hx as (i & <- & Hi). apply in_seq in Hi. lia.
Qed.

(** X7. For a reachable buffer, [update_animation] of a plotter made for
    it never raises on [data[ptr_x]]; it gives the line one point per
    slot, the raw storage over the indices [0 .. size - 1], all inside the
    x-limits; and it puts the marker on the slot at the write pointer,
    which holds the oldest sample still in the buffer, the first of what
    [read_latest(size)] returns, not the newest. *)
Theorem update_animation_draws (rb : RingBuffer F) history frame
    (plotter : LivePlotter.t F) :
  reachable zero rb history ->
  LivePlotter.size plotter = size rb ->
  LivePlotter.xlim plotter = (0, size rb) ->
  exists oldest rest,
    LivePlotter.update_animation frame rb plotter
    = (Artists,
       LivePlotter.set_ptr_marker (mkLine2D [write_ptr rb] [oldest])
         (LivePlotter.set_line
            (mkLine2D (np_arange_int (size rb)) (buffer rb)) plotter)) /\
    length (np_arange_int (size rb)) = length (buffer rb) /\
    Forall (fun x => fst (LivePlotter.xlim plotter) <= x
                     < snd (LivePlotter.xlim plotter))
      (write_ptr rb :: np_arange_int (size rb)) /\
    fst (read_latest (size rb) rb) = Returns (oldest :: rest).
Proof.
  intros HR Hsize Hxlim. pose proof (reachable_Inv zero _ _ HR) as HI.
  pose proof HI as (Hs & Hl & Hp).
  assert (Hread := read_latest_view rb (Z.to_nat (size rb)) HI ltac:(lia)).
  rewrite Z2Nat.id in Hread by lia.
  unfold len in Hl.
  assert (Hview : length (view rb) = Z.to_nat (size rb)).
  { unfold view. rewrite length_app, length_skipn, length_firstn. lia. }
  rewrite lastn_all in Hread by lia.
  destruct (nth_error (buffer rb) (Z.to_nat (write_ptr rb))) as [y|] eqn:Hy.
  2:{ apply nth_error_None in Hy. lia. }
  assert (Hhead : exists rest, view rb = y :: rest).
  { unfold view.
    destruct (skipn (Z.to_nat (write_ptr rb)) (buffer rb)) as [|y' tl] eqn:Hsk.
    - apply (f_equal (@length F)) in Hsk. rewrite length_skipn in Hsk.
      cbn in Hsk. lia.
    - pose proof (nth_error_skipn (Z.to_nat (write_ptr rb)) (buffer rb) 0) as E.
      rewrite Hsk, Nat.add_0_r, Hy in E. cbn in E. injection E as ->.
      eexists. reflexivity. }
  destruct Hhead as (rest & Hhead).
  exists y, rest. split; [|split; [|split]].
  - unfold LivePlotter.update_animation, np_item, len. rewrite Hsize.
    destruct (Z.ltb_spec (write_ptr rb) (- Z.of_nat (length (buffer rb))));
      [lia|].
    rewrite Z.geb_leb.
    destruct (Z.leb_spec (Z.of_nat (length (buffer rb))) (write_ptr rb));
      [lia|].
    destruct (Z.ltb_spec (write_ptr rb) 0); [lia|].
    cbn [orb]. rewrite Hy. reflexivity.
  - unfold np_arange_int. rewrite length_map, length_seq. lia.
  - rewrite Hxlim. cbn [fst snd]. constructor; [lia|].
    apply Forall_forall. intros x Hx. now apply np_arange_int_inside.
  - rewrite Hread. cbn [fst]. now rewrite Hhead.
Qed.
End PlotterExtras.

(** ** Further properties of the generator *)

Section GeneratorExtras.
Context {F : Type} `{Arith F}.
Variable func : list F -> outcome (list F).
Implicit Types (w : World F).

Lemma time_vector_state d w : snd (time_vector d w) = w.
Proof.
  unfold time_vector, bind, get, lift, ret.
  destruct (py_truediv _ _); [|reflexivity].
  destruct (np_arange _ _ _); reflexivity.
Qed.

(** What [_generate_samples] does to the world: nothing when it raises,
    and only the time offset moves when it returns. *)
Lemma generate_samples_cases d w :
  (exists e, _generate_samples func d w = (Raises e, w)) \/
  (exists samples,
     _generate_samples func d w
     = (Returns samples,
        mkWorld (rb w)
          (mkSignalGenerator (sample_rate (gen w)) (running (gen w))
             (fadd (time_offset (gen w)) d) (thread (gen w))))).
Proof.
  unfold _generate_samples, bind.
  pose proof (time_vector_state d w) as Hst.
  destruct (time_vector d w) as [[t|e] w1]; cbn in Hst; subst w1.
  - unfold lift. destruct (func t) as [samples|e].
    + right. exists samples. reflexivity.
    + left. exists e. reflexivity.
  - left. exists e. reflexivity.
Qed.

Lemma generate_samples_raises d w t e :
  fst (time_vector d w) = Returns t -> func t = Raises e ->
  _generate_samples func d w = (Raises e, w).
Proof.
  intros Ht Hf. unfold _generate_samples, bind.
  pose proof (time_vector_state d w) as Hst.
  destruct (time_vector d w) as [[t'|e'] w1]; cbn in Hst, Ht; subst w1;
    [|discriminate]. injection Ht as ->. unfold lift. now rewrite Hf.
Qed.

(** X8. [_generate_samples] advances the time offset only when it
    returns: with a zero sample rate it raises [ZeroDivisionError], when
    the callable raises it raises the same exception, and in both cases
    the generator and the buffer are exactly as before.  In no case does
    it touch the buffer, the running flag, the sample rate or the
    thread. *)
Theorem generate_samples_failure d w :
  (fis_zero (sample_rate (gen w)) = true ->
   _generate_samples func d w = (Raises ZeroDivisionError, w)) /\
  (forall t e,
     fst (time_vector d w) = Returns t -> func t = Raises e ->
     _generate_samples func d w = (Raises e, w)) /\
  (forall t samples,
     fst (time_vector d w) = Returns t -> func t = Returns samples ->
     fst (_generate_samples func d w) = Returns samples /\
     time_offset (gen (snd (_generate_samples func d w)))
     = fadd (time_offset (gen w)) d) /\
  rb (snd (_generate_samples func d w)) = rb w /\
  running (gen (snd (_generate_samples func d w))) = running (gen w) /\
  sample_rate (gen (snd (_generate_samples func d w))) = sample_rate (gen w) /\
  thread (gen (snd (_generate_samples func d w))) = thread (gen w).
Proof.
  split; [|split; [|split]].
  - intros Hz. unfold _generate_samples, time_vector, bind, get, lift,
      py_truediv. now rewrite Hz.
  - intros t e. apply generate_samples_raises.
  - intros t samples Ht Hf. unfold _generate_samples, bind.
    pose proof (time_vector_state d w) as Hst.
    destruct (time_vector d w) as [[t'|e'] w1]; cbn in Hst, Ht; subst w1;
      [|discriminate]. injection Ht as ->. unfold lift. rewrite Hf.
    split; reflexivity.
  - destruct (generate_samples_cases d w) as [(e & ->)|(samples & ->)];
      repeat split; reflexivity.
Qed.

Lemma set_thread_twice t1 t2 w :
  snd (set_thread t2 (snd (set_thread t1 w))) = snd (set_thread t2 w).
Proof. reflexivity. Qed.

Lemma set_thread_same w :
  snd (set_thread (thread (gen w)) w) = w.
Proof. destruct w as [b [sr r t th]]. reflexivity. Qed.

(** Three steps of the live thread, from the test of the loop with
    [running] set, do what one pass through the body does: they end in
    the world the body returns, the thread back at the test; and when
    the body raises, in the world it leaves, the thread exited. *)
Lemma thread_runs_body w d i :
  thread (gen w) = Some (Alive AtTest d i) -> running (gen w) = true ->
  thread_step func (thread_step func (thread_step func w))
  = match run_body func d i w with
    | (Returns _, w') => w'
    | (Raises _, w') => snd (set_thread (Some Exited) w')
    end.
Proof.
  intros Hth Hrun. unfold run_body, bind.
  unfold thread_step at 3. rewrite Hth, Hrun.
  destruct (generate_samples_cases d w) as [(e & ->)|(samples & ->)].
  - unfold thread_step. cbn. reflexivity.
  - unfold thread_step at 2. cbn [set_thread modify snd gen thread rb].
    unfold on_buffer. cbn [rb gen].
    destruct (write samples (rb w)) as [[u|e] b].
    + unfold thread_step. cbn [set_thread modify snd gen thread rb lift].
      destruct (time_sleep i); cbn; rewrite ?Hth; reflexivity.
    + unfold thread_step. cbn. reflexivity.
Qed.

(** The buffer once the thread has exited after [running] was cleared:
    as it is, or with the samples the thread still held written. *)
Lemma thread_step_stopped w :
  running (gen w) = false ->
  running (gen (thread_step func w)) = false /\
  time_offset (gen (thread_step func w)) = time_offset (gen w) /\
  sample_rate (gen (thread_step func w)) = sample_rate (gen w) /\
  rb (thread_step func w)
  = match thread (gen w) with
    | Some (Alive (Generated samples) _ _) => snd (write samples (rb w))
    | _ => rb w
    end /\
  match thread (gen (thread_step func w)) with
  | Some (Alive (Generated _) _ _) => False
  | _ => True
  end.
Proof.
  intros Hrun. destruct w as [b [sr r t th]]. cbn in Hrun. subst r.
  unfold thread_step. cbn [gen thread running rb].
  destruct th as [[[|samples|] d i|]|]; cbn [rb gen thread].
  - cbn. auto.
  - unfold on_buffer. cbn [rb gen].
    destruct (write samples b) as [[u|e] b']; cbn; auto.
  - destruct (time_sleep i); cbn; auto.
  - cbn. auto.
  - cbn. auto.
Qed.

Lemma join_stopped fuel : forall w w1,
  running (gen w) = false -> join func fuel w = Some w1 ->
  time_offset (gen w1) = time_offset (gen w) /\
  sample_rate (gen w1) = sample_rate (gen w) /\
  rb w1 = match thread (gen w) with
          | Some (Alive (Generated samples) _ _) => snd (write samples (rb w))
          | _ => rb w
          end.
Proof.
  induction fuel as [|fuel IH]; intros w w1 Hrun Hjoin.
  - cbn in Hjoin. destruct (thread (gen w)) as [[p d i|]|];
      try discriminate; injection Hjoin as <-; auto.
  - cbn [join] in Hjoin.
    destruct (thread_step_stopped w Hrun) as (Hrun' & Ht & Hs & Hb & Hno).
    destruct (thread (gen w)) as [[p d i|]|] eqn:Hth.
    + destruct (IH _ _ Hrun' Hjoin) as (Ht1 & Hs1 & Hb1).
      rewrite Ht1, Hs1, Hb1, Ht, Hs. split; [reflexivity|].
      split; [reflexivity|].
      destruct (thread (gen (thread_step func w))) as [[[|s|] d' i'|]|];
        try contradiction; exact Hb.
    + injection Hjoin as <-. auto.
    + injection Hjoin as <-. auto.
Qed.

(** X10. When the callable raises at the start of a pass, the thread
    exits at once with the buffer and the time offset untouched and
    [running] still set; [stop()] then returns without waiting, clearing
    the flag. *)
Theorem thread_exits_when_func_raises w d i t e :
  thread (gen w) = Some (Alive AtTest d i) -> running (gen w) = true ->
  fst (time_vector d w) = Returns t -> func t = Raises e ->
  thread_step func w = snd (set_thread (Some Exited) w) /\
  forall fuel,
    stop func fuel (thread_step func w)
    = Some (Returns tt,
            snd (set_running false (snd (set_thread (Some Exited) w)))).
Proof.
  intros Hth Hrun Ht Hf.
  assert (Hstep : thread_step func w = snd (set_thread (Some Exited) w)).
  { unfold thread_step.
    rewrite Hth, Hrun, (generate_samples_raises d w t e Ht Hf). reflexivity. }
  split; [exact Hstep|].
  intros fuel. rewrite Hstep. apply stop_inactive. reflexivity.
Qed.
End GeneratorExtras.

(** ** An empty window, in exact arithmetic *)

Section StreamExtras.
Variable func : list Qc -> outcome (list Qc).
Implicit Types (w : World Qc) (d sr interval origin : Qc).

End StreamExtras.

(** ** Further properties of the waveform callables *)

Lemma DeltaUpDown_call_formula {F : Type} `{Arith F}
    (self : SignalFunctions.DeltaUpDown.t F) (t : list F) :
  fis_zero (SignalFunctions.DeltaUpDown.frequency self) = false ->
  SignalFunctions.DeltaUpDown.call self t
  = Returns (map (SignalFunctions.DeltaUpDown.value_at self)
               (firstn (length t / 2) t)).
Proof.
  intros Hf. unfold SignalFunctions.DeltaUpDown.call, py_truediv.
  rewrite Hf. unfold len. rewrite length_map.
  change 2 with (Z.of_nat 2). rewrite <- Nat2Z.inj_div.
  assert (Hhalf : (length t / 2 <= length t)%nat)
    by (apply Nat.Div0.div_le_upper_bound; lia).
  rewrite py_slice_to by (rewrite length_map; exact Hhalf).
  rewrite firstn_map, map_map. reflexivity.
Qed.

(** X14. When the frequency is not zero, [DeltaUpDown.__call__] returns
    the samples of the first half of the instants it is given, in order,
    each computed from its own instant; the second half of the instants
    is never looked at. *)
Theorem DeltaUpDown_first_half {F : Type} `{Arith F}
    (self : SignalFunctions.DeltaUpDown.t F) (t : list F) :
  fis_zero (SignalFunctions.DeltaUpDown.frequency self) = false ->
  SignalFunctions.DeltaUpDown.call self t
  = Returns (map (SignalFunctions.DeltaUpDown.value_at self)
               (firstn (length t / 2) t)) /\
  forall ignored,
    length ignored = (length t - length t / 2)%nat ->
    SignalFunctions.DeltaUpDown.call self
      (firstn (length t / 2) t ++ ignored)
    = SignalFunctions.DeltaUpDown.call self t.
Proof.
  intros Hf. split; [now apply DeltaUpDown_call_formula|].
  intros ignored Hlen. rewrite !DeltaUpDown_call_formula by exact Hf.
  do 2 f_equal.
  assert (Hhalf : (length t / 2 <= length t)%nat)
    by (apply Nat.Div0.div_le_upper_bound; lia).
  assert (Hl : length (firstn (length t / 2) t ++ ignored) = length t).
  { rewrite length_app, length_firstn. lia. }
  rewrite Hl. apply firstn_app_exact. rewrite length_firstn. lia.
Qed.

Section WaveformExact.
Import SignalFunctions.
Open Scope Qc_scope.






End WaveformExact.

(** ** The further properties on concrete runs *)

Lemma reachable_fresh_4 :
  reachable (Q2Qc 0) (mkRingBuffer 4 (repeat (Q2Qc 0) 4) 0) [].
Proof. apply (reachable_init (Q2Qc 0) 4); [lia|reflexivity]. Defined.

Lemma write_empty_chunk_witness :
  reachable 0 (mkRingBuffer 4 [1; 2; 3; 0] 3) [1; 2; 3] /\
  write [] (mkRingBuffer 4 [1; 2; 3; 0] 3)
  = (Returns tt, mkRingBuffer 4 [1; 2; 3; 0] 3).
Proof.
  split; [exact reachable_1_2_3|].
  exact (write_empty_chunk 0 _ _ reachable_1_2_3).
Defined.

Lemma storage_layout_witness :
  reachable 0 (mkRingBuffer 4 [1; 2; 3; 0] 3) [1; 2; 3] /\
  Z.of_nat 2 < 4 /\
  nth_error [1; 2; 3; 0] 1 = Some 2.
Proof.
  split; [exact reachable_1_2_3|]. split; [lia|].
  exact (storage_layout 0 _ _ 2 reachable_1_2_3 ltac:(cbn; lia)).
Defined.

Lemma split_write_same_reads_witness :
  reachable 0 (mkRingBuffer 4 [1; 2; 3; 0] 3) [1; 2; 3] /\
  0 <= 3 /\
  fst ((write [4; 5] ;; write [6] ;; read_latest 3)
         (mkRingBuffer 4 [1; 2; 3; 0] 3))
  = fst ((write [4; 5; 6] ;; read_latest 3) (mkRingBuffer 4 [1; 2; 3; 0] 3)).
Proof.
  split; [exact reachable_1_2_3|]. split; [lia|].
  exact (proj2 (split_write_same_reads 0 _ _ [4; 5] [6] 3 reachable_1_2_3
                  ltac:(lia))).
Defined.

Lemma read_latest_nested_witness :
  reachable 0 (mkRingBuffer 4 [1; 2; 3; 0] 3) [1; 2; 3] /\
  0 <= 2 <= 3 /\ 3 <= 4 /\
  exists more fewer,
    fst (read_latest 3 (mkRingBuffer 4 [1; 2; 3; 0] 3)) = Returns more /\
    fst (read_latest 2 (mkRingBuffer 4 [1; 2; 3; 0] 3)) = Returns fewer /\
    fewer = lastn 2 more.
Proof.
  split; [exact reachable_1_2_3|]. split; [lia|]. split; [lia|].
  destruct (read_latest_nested 0 _ _ 2 3 reachable_1_2_3 ltac:(lia)
              ltac:(cbn; lia))
    as (more & fewer & E1 & E2 & _ & E3).
  exists more, fewer. auto.
Defined.

Lemma read_latest_nonpositive_witness :
  reachable 0 (mkRingBuffer 4 [1; 2; 3; 0] 3) [1; 2; 3] /\
  -3 <= 0 /\
  exists samples,
    read_latest (-3) (mkRingBuffer 4 [1; 2; 3; 0] 3)
    = (Returns samples, mkRingBuffer 4 [1; 2; 3; 0] 3).
Proof.
  split; [exact reachable_1_2_3|]. split; [lia|].
  exact (proj1 (read_latest_nonpositive 0 _ _ (-3) reachable_1_2_3
                  ltac:(lia))).
Defined.

Lemma zero_size_buffer_witness :
  (2 <= length [7; 8])%nat /\ -1 < 0 /\
  exists msg,
    write [7; 8] (mkRingBuffer 0 [] 0)
    = (Raises (ValueError msg), mkRingBuffer 0 [] 0).
Proof.
  split; [cbn; lia|]. split; [lia|].
  exact (proj2 (proj2 (proj2
           (zero_size_buffer 0 [7; 8] (-1) ltac:(cbn; lia) ltac:(lia))))).
Defined.

Lemma update_animation_draws_witness :
  reachable (Q2Qc 0) (mkRingBuffer 4 (repeat (Q2Qc 0) 4) 0) [] /\
  fst (LivePlotter.update_animation 0
         (mkRingBuffer 4 (repeat (Q2Qc 0) 4) 0)
         (LivePlotter.init (mkRingBuffer 4 (repeat (Q2Qc 0) 4) 0) 10))
  = Artists.
Proof.
  split; [exact reachable_fresh_4|].
  destruct (update_animation_draws (Q2Qc 0) _ _ 0
              (LivePlotter.init (mkRingBuffer 4 (repeat (Q2Qc 0) 4) 0) 10)
              reachable_fresh_4 eq_refl eq_refl)
    as (oldest & rest & E & _).
  now rewrite E.
Defined.

(** ** The write pointer as a counter *)

Section PointerExtras.
Context {A : Type}.
Variable zero : A.
Implicit Types (rb : RingBuffer A) (data : list A).

Lemma write_short_ptr rb data :
  Inv rb -> len data < size rb ->
  exists rb',
    write data rb = (Returns tt, rb') /\ Inv rb' /\ size rb' = size rb /\
    write_ptr rb' = (write_ptr rb + len data) mod size rb.
Proof.
  intros HI Hn. destruct (write_view rb data HI) as (rb' & E & HI' & Hs & _).
  exists rb'. split; [exact E|]. split; [exact HI'|]. split; [exact Hs|].
  destruct (Inv_shape rb HI) as (w & Hw & Erb).
  destruct rb as [sz buf wp]. cbn [size buffer write_ptr] in *.
  injection Erb as -> ->. unfold len in *.
  destruct (Nat.le_gt_cases (length buf) (w + length data)).
  - rewrite write_wrap in E by lia. injection E as <-. cbn.
    apply Z.mod_unique with (q := 1); lia.
  - rewrite write_nowrap in E by lia. injection E as <-. cbn.
    rewrite Z.mod_small; lia.
Qed.

(** X17. As long as every chunk is shorter than the buffer, the write
    pointer counts the samples written, modulo the size: after a run of
    such writes it has advanced by the total number of samples, modulo
    the size; from a fresh buffer it is that total modulo the size. *)
Theorem write_ptr_counts (chunks : list (list A)) : forall rb history,
  reachable zero rb history ->
  Forall (fun data => len data < size rb) chunks ->
  exists rb',
    writes chunks rb = (Returns tt, rb') /\
    write_ptr rb' = (write_ptr rb + len (concat chunks)) mod size rb /\
    (forall capacity, RingBuffer_init zero capacity = Returns rb ->
       write_ptr rb' = len (concat chunks) mod capacity).
Proof.
  assert (Hgen : forall rb, Inv rb ->
    Forall (fun data => len data < size rb) chunks ->
    exists rb',
      writes chunks rb = (Returns tt, rb') /\
      write_ptr rb' = (write_ptr rb + len (concat chunks)) mod size rb).
  { induction chunks as [|data rest IH]; intros rb HI Hall.
    - exists rb. split; [reflexivity|]. cbn. unfold len. cbn.
      destruct HI as (? & ? & ?). rewrite Z.add_0_r, Z.mod_small; lia.
    - inversion Hall as [|? ? Hd Hrest]; subst.
      destruct (write_short_ptr rb data HI Hd) as (r1 & E1 & HI1 & Hs1 & Hp1).
      destruct (IH r1 HI1) as (r2 & E2 & Hp2).
      { rewrite Hs1. exact Hrest. }
      exists r2. cbn [writes]. unfold bind. rewrite E1.
      split; [exact E2|].
      rewrite Hp2, Hp1, Hs1. cbn [concat]. unfold len. rewrite length_app.
      destruct HI as (? & ? & ?).
      rewrite Zplus_mod_idemp_l. f_equal. lia. }
  intros rb history HR Hall.
  destruct (Hgen rb (reachable_Inv zero _ _ HR) Hall) as (rb' & E & Hp).
  exists rb'. split; [exact E|]. split; [exact Hp|].
  intros capacity Hinit. rewrite Hp.
  unfold RingBuffer_init, np_zeros in Hinit.
  destruct (capacity <? 0); [discriminate|]. injection Hinit as <-.
  reflexivity.
Qed.
End PointerExtras.

(** ** More concrete runs *)

Lemma failing_func_raises :
  SignalFunctions.DeltaUpDown.call
    (SignalFunctions.DeltaUpDown.init
       (Q2Qc 2) (Q2Qc 0) (Q2Qc 0) (Q2Qc (1 # 5)))
    [Q2Qc 0; Q2Qc (1 # 2)]
  = Raises ZeroDivisionError.
Proof. reflexivity. Defined.

Lemma thread_exits_when_func_raises_witness :
  running (gen (snd (start (Q2Qc (3 # 4)) (Q2Qc (1 # 100))
                       (SignalGenerator_init
                          (mkRingBuffer 4 (repeat (Q2Qc 0) 4) 0) (Q2Qc 2)))))
  = true /\
  stop
    (SignalFunctions.DeltaUpDown.call
       (SignalFunctions.DeltaUpDown.init
          (Q2Qc 2) (Q2Qc 0) (Q2Qc 0) (Q2Qc (1 # 5))))
    0
    (thread_step
       (SignalFunctions.DeltaUpDown.call
          (SignalFunctions.DeltaUpDown.init
             (Q2Qc 2) (Q2Qc 0) (Q2Qc 0) (Q2Qc (1 # 5))))
       (snd (start (Q2Qc (3 # 4)) (Q2Qc (1 # 100))
               (SignalGenerator_init
                  (mkRingBuffer 4 (repeat (Q2Qc 0) 4) 0) (Q2Qc 2)))))
  = Some (Returns tt,
          mkWorld (mkRingBuffer 4 (repeat (Q2Qc 0) 4) 0)
            (mkSignalGenerator (Q2Qc 2) false (Q2Qc 0) (Some Exited))).
Proof.
  split; [reflexivity|].
  exact (proj2 (thread_exits_when_func_raises
                  (SignalFunctions.DeltaUpDown.call
                     (SignalFunctions.DeltaUpDown.init
                        (Q2Qc 2) (Q2Qc 0) (Q2Qc 0) (Q2Qc (1 # 5))))
                  (snd (start (Q2Qc (3 # 4)) (Q2Qc (1 # 100))
                          (SignalGenerator_init
                             (mkRingBuffer 4 (repeat (Q2Qc 0) 4) 0) (Q2Qc 2))))
                  (Q2Qc (3 # 4)) (Q2Qc (1 # 100))
                  [Q2Qc 0; Q2Qc (1 # 2)] ZeroDivisionError
                  eq_refl eq_refl eq_refl failing_func_raises) 0%nat).
Defined.


Lemma DeltaUpDown_first_half_witness :
  fis_zero (Q2Qc (1 # 5)) = false /\
  SignalFunctions.DeltaUpDown.call
    (SignalFunctions.DeltaUpDown.init
       (Q2Qc 2) (Q2Qc (1 # 5)) (Q2Qc 0) (Q2Qc (1 # 5)))
    [Q2Qc 0; Q2Qc 1; Q2Qc 2; Q2Qc 3; Q2Qc 4]
  = Returns
      (map (SignalFunctions.DeltaUpDown.value_at
              (SignalFunctions.DeltaUpDown.init
                 (Q2Qc 2) (Q2Qc (1 # 5)) (Q2Qc 0) (Q2Qc (1 # 5))))
         [Q2Qc 0; Q2Qc 1]).
Proof.
  assert (Hf : fis_zero (Q2Qc (1 # 5)) = false) by reflexivity.
  split; [exact Hf|].
  exact (proj1 (DeltaUpDown_first_half
                  (SignalFunctions.DeltaUpDown.init
                     (Q2Qc 2) (Q2Qc (1 # 5)) (Q2Qc 0) (Q2Qc (1 # 5)))
                  [Q2Qc 0; Q2Qc 1; Q2Qc 2; Q2Qc 3; Q2Qc 4] Hf)).
Defined.


Lemma write_ptr_counts_witness :
  reachable 0 (mkRingBuffer 4 [1; 2; 3; 0] 3) [1; 2; 3] /\
  Forall (fun data => len data < 4) [[4; 5]; []; [6; 7; 8]] /\
  exists rb',
    writes [[4; 5]; []; [6; 7; 8]] (mkRingBuffer 4 [1; 2; 3; 0] 3)
    = (Returns tt, rb') /\
    write_ptr rb' = 0.
Proof.
  assert (Hall : Forall (fun data : list Z => len data < 4)
                   [[4; 5]; []; [6; 7; 8]])
    by (repeat constructor).
  split; [exact reachable_1_2_3|]. split; [exact Hall|].
  destruct (write_ptr_counts 0 [[4; 5]; []; [6; 7; 8]] _ _
              reachable_1_2_3 Hall)
    as (rb' & E & Hp & _).
  exists rb'. split; [exact E|exact Hp].
Defined.

(** ** The passes of the loop, whatever the arithmetic *)

Section PassFacts.
Context {F : Type} `{Arith F}.
Variable func : list F -> outcome (list F).
Implicit Types (w : World F) (d interval : F).







(** Once [running] is cleared, and unless the thread is inside
    [_generate_samples], the finer steps are the steps of
    [thread_step]. *)
Lemma fine_step_stopped w :
  running (gen w) = false ->
  fine_step func (w, false) = (thread_step func w, false).
Proof.
  intros Hrun. unfold fine_step, thread_step. rewrite Hrun.
  destruct (thread (gen w)) as [[[|samples|] d i|]|]; reflexivity.
Qed.

Lemma fine_join_stopped fuel : forall w,
  running (gen w) = false ->
  fine_join func fuel (w, false)
  = option_map (fun w' => (w', false)) (join func fuel w).
Proof.
  induction fuel as [|fuel IH]; intros w Hrun.
  - cbn. destruct (thread (gen w)) as [[p d i|]|]; reflexivity.
  - cbn [fine_join join fst].
    destruct (thread (gen w)) as [[p d i|]|] eqn:Hth; try reflexivity.
    rewrite (fine_step_stopped w Hrun). apply IH.
    apply (thread_step_stopped func w Hrun).
Qed.

Lemma generate_samples_flag d w b :
  fst (_generate_samples func d (snd (set_running b w)))
  = fst (_generate_samples func d w).
Proof.
  destruct w as [buf [sr r t th]].
  unfold _generate_samples, time_vector, bind, get, lift, ret.
  cbn [set_running modify snd gen rb sample_rate time_offset].
  destruct (py_truediv (flit 1) sr); [|reflexivity].
  destruct (np_arange (flit 0) d _); [|reflexivity].
  destruct (func _); reflexivity.
Qed.
End PassFacts.

(** ** The time vectors of consecutive passes *)







(** ** [stop()] while the thread is inside a pass *)

Section FineStop.
Context {F : Type} `{Arith F}.
Variable func : list F -> outcome (list F).
Implicit Types (w : World F).

Lemma fine_join_flag fuel w p d i :
  thread (gen w) = Some (Alive p d i) -> p <> AtTest ->
  fine_join func fuel (w, true) = fine_join func fuel (w, false).
Proof.
  intros Hth Hp. destruct fuel as [|fuel]; cbn [fine_join fst]; rewrite Hth;
    [reflexivity|].
  unfold fine_step. rewrite Hth.
  destruct p; [contradiction|reflexivity|reflexivity].
Qed.

Lemma fine_join_exits fuel w :
  running (gen w) = false -> (3 <= fuel)%nat ->
  exists w1,
    fine_join func fuel (w, false) = Some (w1, false) /\
    running (gen w1) = false /\ is_alive w1 = false /\
    time_offset (gen w1) = time_offset (gen w) /\
    sample_rate (gen w1) = sample_rate (gen w) /\
    rb w1 = match thread (gen w) with
            | Some (Alive (Generated samples) _ _) => snd (write samples (rb w))
            | _ => rb w
            end.
Proof.
  intros Hrun Hfuel. rewrite fine_join_stopped by exact Hrun.
  pose proof (steps_to_exit_bound w) as Hb.
  destruct (join_returns func fuel w Hrun ltac:(lia)) as (w1 & E & R & I).
  destruct (join_stopped func fuel w w1 Hrun E) as (Ht & Hs & Hrb).
  exists w1. rewrite E. cbn [option_map]. auto 10.
Qed.

(** X9. [stop()] starts no new pass, and lets the pass the thread is in
    come to its end.  With fuel for four steps of the thread, [stop()]
    returns with [running] false and the thread exited, whatever the
    thread was doing.  When the thread was at the test of the [while] and
    had not read the flag, or had exited, or was never started, the time
    offset and the buffer are as before.  When the thread had read the
    flag as true and was inside [_generate_samples], the pass is
    completed: if [_generate_samples] returns, the time offset has moved
    by the duration and the samples are written; if it raises, nothing
    has changed.  When the thread held samples not yet written, they are
    written and the time offset is as before. *)
Theorem stop_starts_no_pass w (entered : bool) (fuel : nat) :
  (4 <= fuel)%nat ->
  exists w1 entered1,
    fine_stop func fuel (w, entered) = Some (Returns tt, (w1, entered1)) /\
    running (gen w1) = false /\ is_alive w1 = false /\
    sample_rate (gen w1) = sample_rate (gen w) /\
    match thread (gen w) with
    | Some (Alive AtTest d _) =>
        if entered then
          match fst (_generate_samples func d w) with
          | Returns samples =>
              time_offset (gen w1) = fadd (time_offset (gen w)) d /\
              rb w1 = snd (write samples (rb w))
          | Raises _ =>
              time_offset (gen w1) = time_offset (gen w) /\ rb w1 = rb w
          end
        else time_offset (gen w1) = time_offset (gen w) /\ rb w1 = rb w
    | Some (Alive (Generated samples) _ _) =>
        time_offset (gen w1) = time_offset (gen w) /\
        rb w1 = snd (write samples (rb w))
    | _ => time_offset (gen w1) = time_offset (gen w) /\ rb w1 = rb w
    end.
Proof.
  intros Hfuel.
  pose proof (generate_samples_flag func) as Hflag.
  unfold fine_stop. cbn [fst snd].
  remember (snd (set_running false w)) as w0 eqn:Ew0.
  assert (Hrun0 : running (gen w0) = false) by (subst w0; reflexivity).
  assert (Hth0 : thread (gen w0) = thread (gen w)) by (subst w0; reflexivity).
  assert (Hoff0 : time_offset (gen w0) = time_offset (gen w))
    by (subst w0; reflexivity).
  assert (Hsr0 : sample_rate (gen w0) = sample_rate (gen w))
    by (subst w0; reflexivity).
  assert (Hrb0 : rb w0 = rb w) by (subst w0; reflexivity).
  assert (Hcoarse :
    exists w1,
      fine_join func fuel (w0, false) = Some (w1, false) /\
      running (gen w1) = false /\ is_alive w1 = false /\
      time_offset (gen w1) = time_offset (gen w) /\
      sample_rate (gen w1) = sample_rate (gen w) /\
      rb w1 = match thread (gen w) with
              | Some (Alive (Generated samples) _ _) => snd (write samples (rb w))
              | _ => rb w
              end).
  { destruct (fine_join_exits fuel w0 Hrun0 ltac:(lia))
      as (w1 & E & R & I & Ht & Hs & Hrb).
    exists w1. rewrite Ht, Hs, Hrb, Hth0, Hrb0, Hoff0, Hsr0. auto 10. }
  rewrite Hth0.
  destruct (thread (gen w)) as [[[|samples|] d i|]|] eqn:Hth.
  - destruct entered.
    + destruct fuel as [|fuel]; [lia|].
      cbn [fine_join fst]. rewrite Hth0. unfold fine_step. rewrite Hth0.
      specialize (Hflag d w false). rewrite <- Ew0 in Hflag. rewrite <- Hflag.
      destruct (generate_samples_cases func d w0) as [(e & E)|(samples & E)];
        rewrite E; cbn [fst].
      * exists (snd (set_thread (Some Exited) w0)), false.
        destruct fuel; cbn; rewrite ?Hrun0, ?Hoff0, ?Hsr0, ?Hrb0; auto 10.
      * match goal with
        | |- context [fine_join func fuel (?x, false)] => set (w2 := x)
        end.
        destruct (fine_join_exits fuel w2 Hrun0 ltac:(lia))
          as (w1 & E1 & R & I & Ht & Hs & Hrb).
        exists w1, false. rewrite E1.
        split; [reflexivity|]. split; [exact R|]. split; [exact I|].
        split; [rewrite Hs; exact Hsr0|].
        split; [rewrite Ht; cbn; now rewrite Hoff0|].
        rewrite Hrb. cbn. now rewrite Hrb0.
    + destruct Hcoarse as (w1 & E & R & I & Ht & Hs & Hrb).
      exists w1, false. rewrite E. auto 10.
  - destruct Hcoarse as (w1 & E & R & I & Ht & Hs & Hrb).
    exists w1, false.
    assert (Hth0' : thread (gen w0) = Some (Alive (Generated samples) d i))
      by (rewrite Hth0; reflexivity).
    destruct entered;
      [rewrite (fine_join_flag fuel w0 _ d i Hth0') by discriminate|];
      rewrite E; auto 10.
  - destruct Hcoarse as (w1 & E & R & I & Ht & Hs & Hrb).
    exists w1, false.
    assert (Hth0' : thread (gen w0) = Some (Alive Written d i))
      by (rewrite Hth0; reflexivity).
    destruct entered;
      [rewrite (fine_join_flag fuel w0 _ d i Hth0') by discriminate|];
      rewrite E; auto 10.
  - exists w0, entered.
    destruct fuel; cbn [fine_join fst]; rewrite Hth0;
      unfold is_alive; rewrite Hth0; auto 10.
  - exists w0, entered. unfold is_alive. rewrite Hth0. auto 10.
Qed.
End FineStop.

(** ** From the generator to the reader *)

Section StreamFacts.
Context {F : Type} `{Arith F}.
Variable func : list F -> outcome (list F).
Variable zero : F.
Implicit Types (w : World F) (d interval : F).


End StreamFacts.

(** ** The generator on concrete runs in binary64 *)

Lemma stop_starts_no_pass_witness :
  (4 <= 4)%nat /\
  exists w1 entered1,
    fine_stop echo 4
      (snd (start (float_lit (3 # 4)) (float_lit 0)
              (SignalGenerator_init fresh_buffer (float_lit 2))), true)
    = Some (Returns tt, (w1, entered1)) /\
    running (gen w1) = false /\ is_alive w1 = false /\
    time_offset (gen w1) = float_lit (3 # 4) /\
    rb w1 = mkRingBuffer 4
              [float_lit 0; float_lit (1 # 2); float_lit 0; float_lit 0] 2.
Proof.
  split; [lia|].
  destruct (stop_starts_no_pass echo
              (snd (start (float_lit (3 # 4)) (float_lit 0)
                      (SignalGenerator_init fresh_buffer (float_lit 2))))
              true 4 ltac:(lia))
    as (w1 & entered1 & E & R & I & _ & Hm).
  vm_compute in Hm. destruct Hm as (Ht & Hb).
  exists w1, entered1. split; [exact E|]. split; [exact R|].
  split; [exact I|]. split; [exact Ht|exact Hb].
Defined.



